(** * An embedding of [client.py] (the MCP command-line chat client)

    The client talks to three outside parties: the tool-provider process
    (through an MCP [ClientSession]), the model API
    ([anthropic.messages.create]) and the terminal.  Every call that leaves
    the file is a node of a program tree [prog]; a run of a program against
    an environment yields the list of events that happened, each call
    together with the answer it got, and an outcome. *)

From Stdlib Require Import String Ascii List Bool Arith Lia QArith.
Import ListNotations.
Local Close Scope Q_scope.
Local Open Scope string_scope.
Local Open Scope list_scope.

Set Implicit Arguments.
Set Warnings "-register-all".

(** ** Data *)

(** The newline character, for the places where the source writes a
    backslash-n inside a literal. *)
Definition nl : string := String (ascii_of_nat 10) EmptyString.

(** Python exceptions: the class decides which [except] clause catches
    them, [exn_str] is what [str(e)] gives. *)
Inductive exn_class : Type :=
| KeyboardInterrupt
| SystemExit
| CancelledError
| GeneratorExit
| JSONDecodeError
| EOFError
| AttributeError
| IndexError
| OtherException (class_name : string).

Record exn : Type := mk_exn { exn_type : exn_class; exn_str : string }.

(** [isinstance(e, Exception)]: the four classes that derive from
    [BaseException] directly are the ones it rejects. *)
Definition is_Exception (e : exn) : bool :=
  match exn_type e with
  | KeyboardInterrupt | SystemExit | CancelledError | GeneratorExit => false
  | _ => true
  end.

(** [isinstance(e, json.JSONDecodeError)]. *)
Definition is_JSONDecodeError (e : exn) : bool :=
  match exn_type e with
  | JSONDecodeError => true
  | _ => false
  end.

(** Values produced by [json.loads] and carried as tool arguments. *)
Inductive json : Type :=
| JNull
| JBool (b : bool)
| JNumber (literal : string)
| JString (s : string)
| JArray (items : list json)
| JObject (members : list (string * json)).

(** The literal [{}] of the source. *)
Definition empty_dict : json := JObject [].

(** [mcp.types.Tool], as far as the client reads it. *)
Record Tool : Type := mk_Tool {
  tool_name : string;
  tool_description : option string;
  tool_inputSchema : json
}.

(** One entry of [available_tools]. *)
Record tool_param : Type := mk_tool_param {
  tp_name : string;
  tp_description : option string;
  tp_input_schema : json
}.

(** One entry of [messages]. *)
Record message : Type := mk_message { role : string; content : string }.

(** One entry of [tool_calls]. *)
Record tool_call : Type := mk_tool_call {
  tc_id : string;
  tc_name : string;
  tc_input : json
}.

(** The items of [CallToolResult.content]: only [TextContent] has a [text]
    attribute. *)
Inductive content_item : Type :=
| TextContent (text : string)
| ImageContent (data : string)
| EmbeddedResource (uri : string).

Record CallToolResult : Type := mk_CallToolResult {
  result_content : list content_item;
  result_isError : bool
}.

(** One entry of [tool_results]. *)
Record tool_result_entry : Type := mk_tool_result_entry {
  tr_call : string;
  tr_result : CallToolResult
}.

(** Streaming events of the model API, by [chunk.type]. *)
Inductive content_block : Type :=
| TextBlock
| ToolUseBlock (id name : string)
| OtherBlock (type : string).

Inductive delta : Type :=
| TextDelta (text : string)
| InputJsonDelta (partial_json : string)
| OtherDelta (type : string).

Inductive chunk : Type :=
| MessageStart
| ContentBlockStart (content_block : content_block)
| ContentBlockDelta (delta : delta)
| ContentBlockStop
| MessageDelta
| MessageStop
| OtherChunk (type : string).

(** A stream is what iterating it yields: its chunks, and then either the
    end of the iteration or an exception. *)
Record message_stream : Type := mk_stream {
  stream_chunks : list chunk;
  stream_failure : option exn
}.

Definition handle : Type := nat.

Record StdioServerParameters : Type := mk_params {
  sp_command : string;
  sp_args : list string;
  sp_env : option (list (string * string))
}.

(** [ClientSession(self.stdio, self.write)]. *)
Record ClientSession : Type := mk_ClientSession {
  cs_stdio : handle;
  cs_write : handle
}.

(** The fields of [self] that the methods assign.  [self.exit_stack] and
    [self.anthropic] are set once by [__init__] and never assigned again,
    so they are not state. *)
Record MCPClient : Type := mk_MCPClient {
  session : option ClientSession;
  stdio : option handle;
  write : option handle
}.

(** ** Calls and outputs *)

(** The calls whose answer comes from outside the file.  Each may answer
    with an exception. *)
Inductive call : Type :=
| StdioClient (server_params : StdioServerParameters)
| EnterClientSession (s : ClientSession)
| Initialize (s : ClientSession)
| ListTools (s : ClientSession)
| CallTool (s : ClientSession) (name : string) (arguments : json)
| Getenv (var : string)
| MessagesCreate (model : option string) (max_tokens : nat)
                 (messages : list message) (tools : option (list tool_param))
| JsonLoads (text : string)
| Input (prompt : string)
| Aclose.

(** The type of the answer of each call. *)
Definition resp (c : call) : Type :=
  match c with
  | StdioClient _ => (handle * handle)%type
  | EnterClientSession _ => ClientSession
  | Initialize _ => unit
  | ListTools _ => list Tool
  | CallTool _ _ _ => CallToolResult
  | Getenv _ => option string
  | MessagesCreate _ _ _ _ => message_stream
  | JsonLoads _ => json
  | Input _ => string
  | Aclose => unit
  end.

(** Terminal output and the pause between characters.  These have no
    answer and are taken not to fail. *)
Inductive output : Type :=
| Write (c : ascii)
| Flush
| Sleep (seconds : Q)
| Print (text : string) (end_ : string).

Inductive event : Type :=
| EvCall (c : call) (r : exn + resp c)
| EvOut (o : output).

Definition trace : Type := list event.

(** ** Programs *)

(** [Spin] stands for a loop that is still running when the observation
    ends. *)
Inductive prog (A : Type) : Type :=
| Ret (a : A)
| Raise (e : exn)
| Spin
| Do (c : call) (k : exn + resp c -> prog A)
| Out (o : output) (k : prog A).

Arguments Ret {A} a.
Arguments Raise {A} e.
Arguments Spin {A}.
Arguments Do {A} c k.
Arguments Out {A} o k.

Fixpoint bind {A B : Type} (p : prog A) (f : A -> prog B) : prog B :=
  match p with
  | Ret a => f a
  | Raise e => Raise e
  | Spin => Spin
  | Do c k => Do c (fun r => bind (k r) f)
  | Out o k => Out o (bind k f)
  end.

Declare Scope prog_scope.
Delimit Scope prog_scope with prog.
Bind Scope prog_scope with prog.

Notation "x <- p ;; q" := (bind p (fun x => q))
  (at level 61, p at next level, right associativity) : prog_scope.
Notation "p ;; q" := (bind p (fun _ => q))
  (at level 61, right associativity) : prog_scope.

Local Open Scope prog_scope.

(** A call whose exception, if it answers with one, is raised at the call
    site. *)
Definition perform (c : call) : prog (resp c) :=
  Do c (fun r => match r with inl e => Raise e | inr v => Ret v end).

Definition emit (o : output) : prog unit := Out o (Ret tt).

(** [print(text)] and [print(text, end=...)]. *)
Definition print (text : string) : prog unit := emit (Print text nl).
Definition print_end (text end_ : string) : prog unit := emit (Print text end_).

(** [try: p  except <class>: handler]. *)
Fixpoint try_except {A : Type} (p : prog A) (catches : exn -> bool)
         (handler : exn -> prog A) : prog A :=
  match p with
  | Ret a => Ret a
  | Raise e => if catches e then handler e else Raise e
  | Spin => Spin
  | Do c k => Do c (fun r => try_except (k r) catches handler)
  | Out o k => Out o (try_except k catches handler)
  end.

(** [try: p  finally: final]. *)
Fixpoint try_finally {A : Type} (p : prog A) (final : prog unit) : prog A :=
  match p with
  | Ret a => final ;; Ret a
  | Raise e => final ;; Raise e
  | Spin => Spin
  | Do c k => Do c (fun r => try_finally (k r) final)
  | Out o k => Out o (try_finally k final)
  end.

(** Loops.  The body of a [for] returns [Next] at its end or at a
    [continue], and [Break] at a [break]. *)
Inductive ctl (S : Type) : Type :=
| Next (st : S)
| Break (st : S).

Arguments Next {S} st.
Arguments Break {S} st.

Fixpoint for_in {X S : Type} (xs : list X) (body : X -> S -> prog (ctl S))
         (st : S) : prog (ctl S) :=
  match xs with
  | [] => Ret (Next st)
  | x :: xs' =>
      c <- body x st ;;
      match c with
      | Next st' => for_in xs' body st'
      | Break st' => Ret (Break st')
      end
  end.

(** [for x in xs: body] without a [break] in the body. *)
Definition for_each {X S : Type} (xs : list X) (body : X -> S -> prog S)
           (st : S) : prog S :=
  c <- for_in xs (fun x s => s' <- body x s ;; Ret (Next s')) st ;;
  match c with Next st' => Ret st' | Break st' => Ret st' end.

(** [for chunk in stream: body]: when the chunks run out without a
    [break], the stream's own failure, if any, is raised by the iteration. *)
Definition for_stream {S : Type} (stream : message_stream)
           (body : chunk -> S -> prog (ctl S)) (st : S) : prog S :=
  c <- for_in (stream_chunks stream) body st ;;
  match c with
  | Break st' => Ret st'
  | Next st' =>
      match stream_failure stream with
      | Some e => Raise e
      | None => Ret st'
      end
  end.

(** [while True: body], observed for at most [fuel] iterations. *)
Inductive loop_ctl : Type := LoopContinue | LoopBreak.

Fixpoint while_true (fuel : nat) (body : prog loop_ctl) : prog unit :=
  match fuel with
  | O => Spin
  | S fuel' =>
      c <- body ;;
      match c with
      | LoopBreak => Ret tt
      | LoopContinue => while_true fuel' body
      end
  end.

(** ** Running a program *)

Inductive outcome (A : Type) : Type :=
| Returned (a : A)
| Raised (e : exn)
| Running.

Arguments Returned {A} a.
Arguments Raised {A} e.
Arguments Running {A}.

(** The environment answers a call knowing everything that happened so
    far. *)
Definition env : Type := forall (h : trace) (c : call), exn + resp c.

(** [exec E p h]: the events [p] adds to the history [h], and how it
    ends. *)
Fixpoint exec {A : Type} (E : env) (p : prog A) (h : trace)
  : trace * outcome A :=
  match p with
  | Ret a => ([], Returned a)
  | Raise e => ([], Raised e)
  | Spin => ([], Running)
  | Do c k =>
      let r := E h c in
      let (s, o) := exec E (k r) (h ++ [EvCall c r]) in
      (EvCall c r :: s, o)
  | Out o k =>
      let (s, o') := exec E k (h ++ [EvOut o]) in
      (EvOut o :: s, o')
  end.

(** ** Builtins of the language

    [str.strip], [str.lower] and the conversions to text that the source
    applies to lists and dicts are Python's, not the client's. *)
Class PyBuiltins : Type := {
  str_strip : string -> string;
  str_lower : string -> string;
  repr_names : list string -> string;
  repr_tool_call : tool_call -> string;
  str_content : list content_item -> string
}.

(** Truth value of a string and of a list. *)
Definition truthy (s : string) : bool :=
  match s with EmptyString => false | String _ _ => true end.

Definition nonempty {X : Type} (l : list X) : bool :=
  match l with [] => false | _ :: _ => true end.

(** [sep.join(parts)]. *)
Fixpoint join (sep : string) (parts : list string) : string :=
  match parts with
  | [] => EmptyString
  | [p] => p
  | p :: rest => p ++ sep ++ join sep rest
  end.

(** [tool_calls[-1]["input"] = v]. *)
Fixpoint set_last_input (tool_calls : list tool_call) (v : json)
  : list tool_call :=
  match tool_calls with
  | [] => []
  | [tc] => [mk_tool_call (tc_id tc) (tc_name tc) v]
  | tc :: rest => tc :: set_last_input rest v
  end.

(** ** The client *)

Section Client.

Context {builtins : PyBuiltins}.

Definition server_params : StdioServerParameters :=
  {| sp_command := "uvx";
     sp_args := ["mcp-server-fetch"; "--ignore-robots-txt";
                 "--proxy-url"; "http://127.0.0.1:7897"];
     sp_env := None |}.

(** [MCPClient.__init__]. *)
Definition MCPClient_init : MCPClient :=
  {| session := None; stdio := None; write := None |}.

(** [self.session.<method>]: an attribute of [None] cannot be looked up. *)
Definition self_session (self : MCPClient) (method : string)
  : prog ClientSession :=
  match session self with
  | Some s => Ret s
  | None =>
      Raise (mk_exn AttributeError
               ("'NoneType' object has no attribute '" ++ method ++ "'"))
  end.

Definition connect_to_server (self : MCPClient) : prog MCPClient :=
  stdio_transport <- perform (StdioClient server_params) ;;
  let self := {| session := session self;
                 stdio := Some (fst stdio_transport);
                 write := Some (snd stdio_transport) |} in
  s <- perform (EnterClientSession
                  (mk_ClientSession (fst stdio_transport) (snd stdio_transport))) ;;
  let self := {| session := Some s; stdio := stdio self; write := write self |} in
  perform (Initialize s) ;;
  tools <- perform (ListTools s) ;;
  print (nl ++ "Connected to server with tools: "
            ++ repr_names (map tool_name tools)) ;;
  Ret self.

Definition print_streaming_text (text : string) (delay : Q) : prog unit :=
  for_each (list_ascii_of_string text)
    (fun char _ =>
       emit (Write char) ;;
       emit Flush ;;
       emit (Sleep delay))
    tt.

(** The local variables of the first streaming loop of [process_query]. *)
Record stream_state : Type := mk_stream_state {
  accumulated_text : string;
  tool_calls : list tool_call;
  current_tool_input : string
}.

(** The body of [for chunk in stream]. *)
Definition handle_chunk (chunk : chunk) (st : stream_state)
  : prog (ctl stream_state) :=
  match chunk with
  | MessageStart => Ret (Next st)
  | ContentBlockStart cb =>
      match cb with
      | TextBlock => Ret (Next st)
      | ToolUseBlock id name =>
          Ret (Next {| accumulated_text := accumulated_text st;
                       tool_calls := tool_calls st
                                     ++ [mk_tool_call id name empty_dict];
                       current_tool_input := EmptyString |})
      | OtherBlock _ => Ret (Next st)
      end
  | ContentBlockDelta d =>
      match d with
      | TextDelta text_chunk =>
          print_streaming_text text_chunk (1 # 100) ;;
          Ret (Next {| accumulated_text := accumulated_text st ++ text_chunk;
                       tool_calls := tool_calls st;
                       current_tool_input := current_tool_input st |})
      | InputJsonDelta partial_json =>
          if nonempty (tool_calls st)
          then Ret (Next {| accumulated_text := accumulated_text st;
                            tool_calls := tool_calls st;
                            current_tool_input :=
                              current_tool_input st ++ partial_json |})
          else Ret (Next st)
      | OtherDelta _ => Ret (Next st)
      end
  | ContentBlockStop =>
      tcs <- (if nonempty (tool_calls st) && truthy (current_tool_input st)
              then
                v <- try_except (perform (JsonLoads (current_tool_input st)))
                       is_JSONDecodeError (fun _ => Ret empty_dict) ;;
                Ret (set_last_input (tool_calls st) v)
              else Ret (tool_calls st)) ;;
      Ret (Next {| accumulated_text := accumulated_text st;
                   tool_calls := tcs;
                   current_tool_input := EmptyString |})
  | MessageDelta => Ret (Next st)
  | MessageStop => Ret (Break st)
  | OtherChunk _ => Ret (Next st)
  end.

(** The body of [for chunk in follow_up_stream]. *)
Definition handle_follow_up_chunk (chunk : chunk) (follow_up_text : string)
  : prog (ctl string) :=
  match chunk with
  | ContentBlockDelta (TextDelta text_chunk) =>
      print_streaming_text text_chunk (1 # 100) ;;
      Ret (Next (follow_up_text ++ text_chunk)%string)
  | _ => Ret (Next follow_up_text)
  end.

(** The local variables that the loop over [tool_calls] updates. *)
Record tool_loop_state : Type := mk_tool_loop_state {
  tl_messages : list message;
  tl_final_text : list string;
  tl_tool_results : list tool_result_entry
}.

(** [result.content[0].text if hasattr(result.content[0], 'text')
     else str(result.content)]. *)
Definition tool_result_text (result : CallToolResult) : prog string :=
  match result_content result with
  | [] => Raise (mk_exn IndexError "list index out of range")
  | TextContent text :: _ => Ret text
  | _ :: _ => Ret (str_content (result_content result))
  end.

(** The body of [for tool_call in tool_calls]. *)
Definition handle_tool_call (self : MCPClient) (accumulated_text : string)
           (tool_call : tool_call) (st : tool_loop_state)
  : prog tool_loop_state :=
  let tool_name := tc_name tool_call in
  let tool_args := tc_input tool_call in
  print (nl ++ nl ++ "🔧 Calling tool " ++ repr_tool_call tool_call ++ "...") ;;
  s <- self_session self "call_tool" ;;
  result <- perform (CallTool s tool_name tool_args) ;;
  let tool_results := tl_tool_results st ++ [mk_tool_result_entry tool_name result] in
  tool_result <- tool_result_text result ;;
  print (nl ++ "🔧 Tool " ++ tool_name ++ " returned: " ++ nl ++ tool_result) ;;
  let messages :=
    tl_messages st
    ++ [mk_message "assistant"
          (if truthy accumulated_text then accumulated_text
           else "I'll use the " ++ tool_name ++ " tool.")]
    ++ [mk_message "user" tool_result] in
  print (nl ++ "🤖 Processing tool result...") ;;
  print_end (nl ++ "💬 ") EmptyString ;;
  model <- perform (Getenv "ANTHROPIC_MODEL") ;;
  follow_up_stream <- perform (MessagesCreate model 1000 messages None) ;;
  follow_up_text <- for_stream follow_up_stream handle_follow_up_chunk EmptyString ;;
  Ret {| tl_messages := messages;
         tl_final_text := if truthy follow_up_text
                          then tl_final_text st ++ [follow_up_text]
                          else tl_final_text st;
         tl_tool_results := tool_results |}.

Definition init_stream_state : stream_state :=
  {| accumulated_text := EmptyString;
     tool_calls := [];
     current_tool_input := EmptyString |}.

Definition process_query (self : MCPClient) (query : string) : prog string :=
  let messages := [mk_message "user" query] in
  s <- self_session self "list_tools" ;;
  response <- perform (ListTools s) ;;
  let available_tools :=
    map (fun tool => {| tp_name := tool_name tool;
                        tp_description := tool_description tool;
                        tp_input_schema := tool_inputSchema tool |}) response in
  print (nl ++ "🤖 Claude is thinking...") ;;
  model <- perform (Getenv "ANTHROPIC_MODEL") ;;
  stream <- perform (MessagesCreate model 1000 messages (Some available_tools)) ;;
  print_end (nl ++ "💬 ") EmptyString ;;
  st <- for_stream stream handle_chunk init_stream_state ;;
  let final_text :=
    if truthy (accumulated_text st) then [accumulated_text st] else [] in
  tl <- for_each (tool_calls st) (handle_tool_call self (accumulated_text st))
         {| tl_messages := messages;
            tl_final_text := final_text;
            tl_tool_results := [] |} ;;
  print nl ;;
  Ret (join nl (tl_final_text tl)).

(** The [try] block inside [while True] of [chat_loop]. *)
Definition chat_try_block (self : MCPClient) : prog loop_ctl :=
  line <- perform (Input (nl ++ "Query: ")) ;;
  let query := str_strip line in
  if String.eqb (str_lower query) "quit"
  then Ret LoopBreak
  else
    response <- process_query self query ;;
    print (nl ++ response) ;;
    Ret LoopContinue.

(** One pass through the body of [while True]: the [try] block under
    [except Exception as e]. *)
Definition chat_iteration (self : MCPClient) : prog loop_ctl :=
  try_except (chat_try_block self) is_Exception
    (fun e => print (nl ++ "Error: " ++ exn_str e) ;; Ret LoopContinue).

Definition chat_loop (self : MCPClient) (fuel : nat) : prog unit :=
  print (nl ++ "MCP Client Started!") ;;
  print "Type your queries or 'quit' to exit." ;;
  while_true fuel (chat_iteration self).

Definition cleanup (self : MCPClient) : prog unit :=
  perform Aclose.

(** The [try] block of [main]. *)
Definition main_body (client : MCPClient) (fuel : nat) : prog unit :=
  client' <- connect_to_server client ;;
  chat_loop client' fuel.

Definition main (fuel : nat) : prog unit :=
  let client := MCPClient_init in
  try_finally (main_body client fuel) (cleanup client).

End Client.

(** ** Observations on traces *)

(** What a call to one of the two remote parties looked like: the request
    and the answer. *)
Inductive exchange : Type :=
| ModelExchange (messages : list message) (tools : option (list tool_param))
                (answer : exn + message_stream)
| ToolExchange (name : string) (arguments : json)
               (answer : exn + CallToolResult).

Definition exchange_of (ev : event) : option exchange :=
  match ev with
  | EvCall c r =>
      match c as c0 return (exn + resp c0 -> option exchange) with
      | MessagesCreate _ _ msgs tools => fun a => Some (ModelExchange msgs tools a)
      | CallTool _ name args => fun a => Some (ToolExchange name args a)
      | _ => fun _ => None
      end r
  | EvOut _ => None
  end.

(** The exchanges with the model and with the tool provider, in order. *)
Fixpoint remote (s : trace) : list exchange :=
  match s with
  | [] => []
  | ev :: s' =>
      match exchange_of ev with
      | Some x => x :: remote s'
      | None => remote s'
      end
  end.

Definition is_list_tools (c : call) : bool :=
  match c with ListTools _ => true | _ => false end.

Definition is_json_loads (c : call) : bool :=
  match c with JsonLoads _ => true | _ => false end.

Definition is_aclose (c : call) : bool :=
  match c with Aclose => true | _ => false end.

(** The calls of a trace, without their answers. *)
Fixpoint calls (s : trace) : list call :=
  match s with
  | [] => []
  | EvCall c _ :: s' => c :: calls s'
  | EvOut _ :: s' => calls s'
  end.

(** How many capability listings a trace holds. *)
Definition listings (s : trace) : nat :=
  length (filter is_list_tools (calls s)).

(** The texts handed to [json.loads], in order. *)
Fixpoint parsed_texts (s : trace) : list string :=
  match s with
  | [] => []
  | EvCall (JsonLoads text) _ :: s' => text :: parsed_texts s'
  | _ :: s' => parsed_texts s'
  end.

(** The characters handed to [sys.stdout.write], in order. *)
Fixpoint written (s : trace) : list ascii :=
  match s with
  | [] => []
  | EvOut (Write c) :: s' => c :: written s'
  | _ :: s' => written s'
  end.

(** The events of typing out a text one character at a time. *)
Definition typed (text : string) (delay : Q) : trace :=
  flat_map (fun c => [EvOut (Write c); EvOut Flush; EvOut (Sleep delay)])
           (list_ascii_of_string text).

(** ** Observations on streams *)

(** The chunks that can lie strictly inside a content block: everything
    but the start of a tool-use block, the end of a block and the end of
    the message. *)
Definition inside_block (c : chunk) : bool :=
  match c with
  | ContentBlockStart (ToolUseBlock _ _) => false
  | ContentBlockStop => false
  | MessageStop => false
  | _ => true
  end.

(** The argument fragments of a run of chunks, concatenated in order. *)
Fixpoint fragments (chunks : list chunk) : string :=
  match chunks with
  | [] => EmptyString
  | ContentBlockDelta (InputJsonDelta partial_json) :: rest =>
      (partial_json ++ fragments rest)%string
  | _ :: rest => fragments rest
  end.

(** The text fragments of a run of chunks, concatenated in order. *)
Fixpoint stream_text (chunks : list chunk) : string :=
  match chunks with
  | [] => EmptyString
  | ContentBlockDelta (TextDelta text) :: rest =>
      (text ++ stream_text rest)%string
  | _ :: rest => stream_text rest
  end.

(** The terminal events of the text fragments of a run of chunks. *)
Fixpoint typed_chunks (chunks : list chunk) : trace :=
  match chunks with
  | [] => []
  | ContentBlockDelta (TextDelta text) :: rest =>
      typed text (1 # 100) ++ typed_chunks rest
  | _ :: rest => typed_chunks rest
  end.

(** The chunks the first loop of [process_query] looks at: those before
    the first [message_stop]. *)
Fixpoint before_message_stop (chunks : list chunk) : list chunk :=
  match chunks with
  | [] => []
  | MessageStop :: _ => []
  | c :: rest => c :: before_message_stop rest
  end.

(** The tool-use blocks a run of chunks starts, as (id, name). *)
Fixpoint started_tools (chunks : list chunk) : list (string * string) :=
  match chunks with
  | [] => []
  | ContentBlockStart (ToolUseBlock id name) :: rest =>
      (id, name) :: started_tools rest
  | _ :: rest => started_tools rest
  end.


(** ** An instance of the builtins, for running the client

    Whitespace and case are those of the ASCII range; the renderings are
    the ones Python prints for the values met in the examples. *)
Module Ascii_builtins.

Definition is_space (c : ascii) : bool :=
  let n := nat_of_ascii c in
  (((9 <=? n) && (n <=? 13)) || ((28 <=? n) && (n <=? 32)))%nat.

Fixpoint lstrip (cs : list ascii) : list ascii :=
  match cs with
  | [] => []
  | c :: rest => if is_space c then lstrip rest else cs
  end.

Definition strip (s : string) : string :=
  string_of_list_ascii
    (rev (lstrip (rev (lstrip (list_ascii_of_string s))))).

Definition lower_char (c : ascii) : ascii :=
  let n := nat_of_ascii c in
  if ((65 <=? n) && (n <=? 90))%nat then ascii_of_nat (n + 32) else c.

Fixpoint lower (s : string) : string :=
  match s with
  | EmptyString => EmptyString
  | String c rest => String (lower_char c) (lower rest)
  end.

Definition quoted (s : string) : string := ("'" ++ s ++ "'")%string.

Fixpoint repr_json (j : json) : string :=
  match j with
  | JNull => "None"
  | JBool true => "True"
  | JBool false => "False"
  | JNumber literal => literal
  | JString s => quoted s
  | JArray items => "[" ++ join ", " (map repr_json items) ++ "]"
  | JObject members =>
      "{" ++ join ", "
               (map (fun kv => quoted (fst kv) ++ ": " ++ repr_json (snd kv))
                    members) ++ "}"
  end%string.

Definition repr_item (c : content_item) : string :=
  match c with
  | TextContent text => "TextContent(text=" ++ quoted text ++ ")"
  | ImageContent data => "ImageContent(data=" ++ quoted data ++ ")"
  | EmbeddedResource uri => "EmbeddedResource(uri=" ++ quoted uri ++ ")"
  end%string.

#[export] Instance builtins : PyBuiltins := {
  str_strip := strip;
  str_lower := lower;
  repr_names := fun names => ("[" ++ join ", " (map quoted names) ++ "]")%string;
  repr_tool_call := fun tc =>
    ("{'id': " ++ quoted (tc_id tc) ++ ", 'name': " ++ quoted (tc_name tc)
       ++ ", 'input': " ++ repr_json (tc_input tc) ++ "}")%string;
  str_content := fun items => ("[" ++ join ", " (map repr_item items) ++ "]")%string
}.

End Ascii_builtins.

(** ** Scripted environments, for running the client *)

(** What the outside answers: the lines typed at the prompt (or the
    exception [input] raises instead), the tools of the provider, the
    model's stream for a request, the provider's result for a call, and
    [json.loads]. *)
Record world : Type := mk_world {
  w_lines : list (exn + string);
  w_tools : list Tool;
  w_model : list message -> option (list tool_param) -> exn + message_stream;
  w_call_tool : string -> json -> exn + CallToolResult;
  w_loads : string -> exn + json
}.

Definition is_input (c : call) : bool :=
  match c with Input _ => true | _ => false end.

(** How many lines have been asked for so far. *)
Definition inputs_read (h : trace) : nat :=
  length (filter is_input (calls h)).

Definition eof : exn := mk_exn EOFError "EOF when reading a line".

Definition world_env (w : world) : env :=
  fun h c =>
    match c as c0 return exn + resp c0 with
    | StdioClient _ => inr (3, 4)
    | EnterClientSession s => inr s
    | Initialize _ => inr tt
    | ListTools _ => inr (w_tools w)
    | CallTool _ name args => w_call_tool w name args
    | Getenv _ => inr (Some "claude")
    | MessagesCreate _ _ msgs tools => w_model w msgs tools
    | JsonLoads text => w_loads w text
    | Input _ => nth (inputs_read h) (w_lines w) (inl eof)
    | Aclose => inr tt
    end.

Definition all_digits (s : string) : bool :=
  forallb (fun c => let n := nat_of_ascii c in ((48 <=? n) && (n <=? 57))%nat)
          (list_ascii_of_string s).

(** [json.loads] on the texts the examples use: the empty object and
    unsigned integers without a leading zero parse, every other text of
    the examples is not JSON. *)
Definition loads_literal (text : string) : exn + json :=
  if String.eqb text "{}" then inr (JObject [])
  else
    match text with
    | EmptyString => inl (mk_exn JSONDecodeError "Expecting value: line 1 column 1 (char 0)")
    | String c rest =>
        if all_digits text && (negb (Ascii.eqb c "0") || String.eqb rest EmptyString)
        then inr (JNumber text)
        else inl (mk_exn JSONDecodeError "Expecting value: line 1 column 1 (char 0)")
    end.

Definition fetch_tool : Tool :=
  {| tool_name := "fetch";
     tool_description := Some "Fetches a URL";
     tool_inputSchema := JObject [] |}.

Definition text_result (text : string) : CallToolResult :=
  {| result_content := [TextContent text]; result_isError := false |}.

(** A model that answers a bare query (a single message) with the given
    chunks and any longer conversation with the text [done]. *)
Definition model_of (first : list chunk)
  : list message -> option (list tool_param) -> exn + message_stream :=
  fun msgs _ =>
    match msgs with
    | [_] => inr (mk_stream first None)
    | _ =>
        inr (mk_stream [MessageStart; ContentBlockStart TextBlock;
                        ContentBlockDelta (TextDelta "done");
                        ContentBlockStop; MessageStop] None)
    end.

Definition world_of (lines : list (exn + string)) (first : list chunk) : world :=
  {| w_lines := lines;
     w_tools := [fetch_tool];
     w_model := model_of first;
     w_call_tool := fun name _ => inr (text_result ("page of " ++ name));
     w_loads := loads_literal |}.

(** A response that uses one tool, whose arguments arrive in two
    fragments. *)
Definition one_tool_response : list chunk :=
  [MessageStart;
   ContentBlockStart TextBlock;
   ContentBlockDelta (TextDelta "ok");
   ContentBlockStop;
   ContentBlockStart (ToolUseBlock "toolu_1" "fetch");
   ContentBlockDelta (InputJsonDelta "4");
   ContentBlockDelta (InputJsonDelta "2");
   ContentBlockStop;
   MessageDelta;
   MessageStop].

(** A response that uses one tool and sends no argument text for it. *)
Definition no_argument_response : list chunk :=
  [MessageStart;
   ContentBlockStart (ToolUseBlock "toolu_1" "fetch");
   ContentBlockDelta (InputJsonDelta EmptyString);
   ContentBlockStop;
   MessageDelta;
   MessageStop].

(** A response that uses two tools. *)
Definition two_tool_response : list chunk :=
  [MessageStart;
   ContentBlockStart (ToolUseBlock "toolu_1" "fetch");
   ContentBlockDelta (InputJsonDelta "{}");
   ContentBlockStop;
   ContentBlockStart (ToolUseBlock "toolu_2" "fetch");
   ContentBlockDelta (InputJsonDelta "7");
   ContentBlockStop;
   MessageDelta;
   MessageStop].

(** A client whose session is open. *)
Definition connected : MCPClient :=
  {| session := Some (mk_ClientSession 3 4); stdio := Some 3; write := Some 4 |}.

(** ** Sequencing of runs *)

(** The run of [p ;; f]: the run of [p], and when it returns, the run of
    [f] after it. *)
Definition and_then {A B : Type} (r : trace * outcome A)
           (k : A -> trace -> trace * outcome B) : trace * outcome B :=
  match r with
  | (s1, Returned a) => let (s2, o2) := k a s1 in (s1 ++ s2, o2)
  | (s1, Raised e) => (s1, Raised e)
  | (s1, Running) => (s1, Running)
  end.

(** The run of [try: ... finally: final] once the [try] block has ended
    with events [s1] and outcome [o1], given the run of [final]: an
    exception of [final] replaces the outcome of the block. *)
Definition finally_then {A : Type} (s1 : trace) (o1 : outcome A)
           (r : trace * outcome unit) : trace * outcome A :=
  (s1 ++ fst r,
   match snd r with
   | Returned _ => o1
   | Raised e => Raised e
   | Running => Running
   end).

(** The state a loop body hands on, at a [break] or not. *)
Definition ctl_state {S : Type} (c : ctl S) : S :=
  match c with Next st => st | Break st => st end.


(** A run that starts with the event [ev] and goes on as [r]. *)
Definition after {A : Type} (ev : event) (r : trace * outcome A)
  : trace * outcome A :=
  (ev :: fst r, snd r).

(** [p] makes no call outside [ok], whatever it is answered. *)
Inductive only (ok : call -> bool) {A : Type} : prog A -> Prop :=
| only_Ret (a : A) : only ok (Ret a)
| only_Raise (e : exn) : only ok (Raise e)
| only_Spin : only ok Spin
| only_Do (c : call) (k : exn + resp c -> prog A) :
    ok c = true -> (forall r, only ok (k r)) -> only ok (Do c k)
| only_Out (o : output) (k : prog A) : only ok k -> only ok (Out o k).

(** What identifies a tool call in the model's response. *)
Definition id_name (tc : tool_call) : string * string := (tc_id tc, tc_name tc).

(** The exchanges of a query, reduced to who was called. *)
Inductive step : Type :=
| AskModel
| UseTool (name : string) (arguments : json).

Definition step_of (x : exchange) : step :=
  match x with
  | ModelExchange _ _ _ => AskModel
  | ToolExchange name args _ => UseTool name args
  end.

Section Rounds.

Context {builtins : PyBuiltins}.

(** The assistant message that precedes a tool result. *)
Definition assistant_message (accumulated_text tool_name : string) : message :=
  mk_message "assistant"
    (if truthy accumulated_text then accumulated_text
     else "I'll use the " ++ tool_name ++ " tool.").

(** The exchanges of the loop over [tool_calls], one round per tool call:
    the tool answers with a result, and the model is sent the messages so
    far with the assistant message and the result appended.  [texts] is a
    list in which every non-empty follow-up text ends up. *)
Inductive rounds (accumulated_text : string) (texts : list string)
  : list message -> list tool_call -> list exchange -> Prop :=
| rounds_nil (msgs : list message) : rounds accumulated_text texts msgs [] []
| rounds_cons (msgs : list message) (tc : tool_call) (tcs : list tool_call)
    (result : CallToolResult) (text : string) (stream : message_stream)
    (rest : list exchange) :
    tool_result_text result = Ret text ->
    (truthy (stream_text (stream_chunks stream)) = true ->
     In (stream_text (stream_chunks stream)) texts) ->
    rounds accumulated_text texts
      (msgs ++ [assistant_message accumulated_text (tc_name tc);
                mk_message "user" text]) tcs rest ->
    rounds accumulated_text texts msgs (tc :: tcs)
      (ToolExchange (tc_name tc) (tc_input tc) (inr result)
       :: ModelExchange
            (msgs ++ [assistant_message accumulated_text (tc_name tc);
                      mk_message "user" text]) None (inr stream)
       :: rest).

(** The reads at the prompt that were answered by a line to process:
    any line that is not [quit] once stripped and lowercased. *)
Definition query_read (ev : event) : bool :=
  match ev with
  | EvCall c r =>
      match c as c0 return (exn + resp c0 -> bool) with
      | Input _ =>
          fun a =>
            match a with
            | inr line => negb (String.eqb (str_lower (str_strip line)) "quit")
            | inl _ => false
            end
      | _ => fun _ => false
      end r
  | EvOut _ => false
  end.

(** How many queries a trace holds. *)
Definition queries (s : trace) : nat := length (filter query_read s).

End Rounds.

Definition is_exchange (c : call) : bool :=
  match c with
  | MessagesCreate _ _ _ _ => true
  | CallTool _ _ _ => true
  | _ => false
  end.

(** Chunks for the examples: argument fragments around a text fragment,
    fragments that are not JSON, and fragments outside any tool-use
    block. *)
Definition argument_fragments : list chunk :=
  [ContentBlockDelta (InputJsonDelta "4");
   ContentBlockDelta (TextDelta "x");
   ContentBlockDelta (InputJsonDelta "2")].



(** Environments for the examples. *)
Definition one_tool_env : env := world_env (world_of [] one_tool_response).
Definition two_tool_env : env := world_env (world_of [] two_tool_response).
Definition no_argument_env : env := world_env (world_of [] no_argument_response).


(** A session in which one query, then [quit], is typed; one in which
    [input] raises at end of input and then [quit] is typed; one in
    which the interrupt key is hit at the prompt; one in which the line
    typed is empty. *)
Definition session_env : env :=
  world_env (world_of [inr "hi"; inr "quit"] one_tool_response).
Definition empty_line_env : env :=
  world_env (world_of [inr EmptyString] one_tool_response).
Definition quit_env : env :=
  world_env (world_of [inr " QUIT "] one_tool_response).

Definition prompt : call := Input (nl ++ "Query: ").

(** ** Further observations *)

(** The pauses of a trace, in order. *)
Fixpoint pauses (s : trace) : list Q :=
  match s with
  | [] => []
  | EvOut (Sleep d) :: s' => d :: pauses s'
  | _ :: s' => pauses s'
  end.

(** What a trace sends to the terminal, in order. *)
Fixpoint outputs (s : trace) : list output :=
  match s with
  | [] => []
  | EvOut o :: s' => o :: outputs s'
  | EvCall _ _ :: s' => outputs s'
  end.

(** Whether a run of chunks holds a [message_stop]. *)
Fixpoint has_message_stop (chunks : list chunk) : bool :=
  match chunks with
  | [] => false
  | MessageStop :: _ => true
  | _ :: rest => has_message_stop rest
  end.


(** The message lists of the requests to the model, in order. *)
Fixpoint requests (xs : list exchange) : list (list message) :=
  match xs with
  | [] => []
  | ModelExchange msgs _ _ :: rest => msgs :: requests rest
  | ToolExchange _ _ _ :: rest => requests rest
  end.

(** The roles of a message list alternate, starting with [user] when
    [user_next] holds and with [assistant] otherwise. *)
Fixpoint alternating (user_next : bool) (msgs : list message) : bool :=
  match msgs with
  | [] => true
  | m :: rest =>
      String.eqb (role m) (if user_next then "user" else "assistant")
      && alternating (negb user_next) rest
  end.

(** The entry of [available_tools] made from a listed tool. *)
Definition available_tool (tool : Tool) : tool_param :=
  {| tp_name := tool_name tool;
     tp_description := tool_description tool;
     tp_input_schema := tool_inputSchema tool |}.

(** The calls [process_query] can make. *)
Definition query_call (c : call) : bool :=
  match c with
  | ListTools _ | CallTool _ _ _ | Getenv _ | MessagesCreate _ _ _ _
  | JsonLoads _ => true
  | _ => false
  end.


(** A model whose first response is the text [hello] and nothing else,
    and a provider whose tool returns no content. *)
Definition plain_response : list chunk :=
  [MessageStart; ContentBlockStart TextBlock;
   ContentBlockDelta (TextDelta "hello"); ContentBlockStop;
   MessageDelta; MessageStop].


Definition empty_result : CallToolResult :=
  {| result_content := []; result_isError := false |}.

Definition empty_result_env : env :=
  world_env
    {| w_lines := [];
       w_tools := [fetch_tool];
       w_model := model_of one_tool_response;
       w_call_tool := fun _ _ => inr empty_result;
       w_loads := loads_literal |}.

(** An environment in which [json.loads] hits the recursion limit, one in
    which the handshake fails at [initialize], and one in which closing
    the exit stack fails. *)
Definition recursion_error : exn :=
  mk_exn (OtherException "RecursionError") "maximum recursion depth exceeded".

Definition deep_env : env :=
  world_env
    {| w_lines := [];
       w_tools := [fetch_tool];
       w_model := model_of one_tool_response;
       w_call_tool := fun name _ => inr (text_result ("page of " ++ name));
       w_loads := fun _ => inl recursion_error |}.

Definition refused : exn :=
  mk_exn (OtherException "McpError") "Connection closed".

Definition refusing_env : env :=
  fun h c =>
    match c as c0 return exn + resp c0 with
    | Initialize _ => inl refused
    | c0 => quit_env h c0
    end.

Definition eof_forever_env : env := world_env (world_of [] one_tool_response).

(** An environment in which closing the exit stack fails, chunks that
    arrive after a [message_stop], a text block, and the state of the
    first loop once a tool call has been collected. *)
Definition close_error : exn :=
  mk_exn (OtherException "RuntimeError") "Attempted to exit cancel scope".

Definition failing_close_env : env :=
  fun h c =>
    match c as c0 return exn + resp c0 with
    | Aclose => inl close_error
    | c0 => quit_env h c0
    end.

Definition late_chunks : list chunk :=
  one_tool_response ++ [ContentBlockDelta (TextDelta "late")].

Definition text_block : list chunk :=
  [ContentBlockStart TextBlock; ContentBlockDelta (TextDelta "x");
   ContentBlockStop].

Definition collected : stream_state :=
  {| accumulated_text := "ok";
     tool_calls := [mk_tool_call "toolu_1" "fetch" (JNumber "42")];
     current_tool_input := EmptyString |}.

Definition first_tool_call : tool_call :=
  mk_tool_call "toolu_1" "fetch" (JNumber "42").

Definition fresh_conversation : tool_loop_state :=
  {| tl_messages := [mk_message "user" "hi"];
     tl_final_text := ["ok"];
     tl_tool_results := [] |}.

(** * Properties *)

Section Runs.

Variable E : env.

Lemma exec_bind (A B : Type) (p : prog A) (f : A -> prog B) (h : trace) :
  exec E (bind p f) h
  = and_then (exec E p h) (fun a s1 => exec E (f a) (h ++ s1)).
Proof.
  revert h; induction p as [a | e | | c k IH | o k IH]; intros h; simpl.
  - rewrite app_nil_r. now destruct (exec E (f a) h).
  - reflexivity.
  - reflexivity.
  - rewrite IH.
    destruct (exec E (k (E h c)) (h ++ [EvCall c (E h c)])) as [s1 [a | e | ]];
      simpl; try reflexivity.
    rewrite <- app_assoc; simpl.
    now destruct (exec E (f a) (h ++ EvCall c (E h c) :: s1)).
  - rewrite IH.
    destruct (exec E k (h ++ [EvOut o])) as [s1 [a | e | ]];
      simpl; try reflexivity.
    rewrite <- app_assoc; simpl.
    now destruct (exec E (f a) (h ++ EvOut o :: s1)).
Qed.

Lemma exec_try_except (A : Type) (p : prog A) (catches : exn -> bool)
      (handler : exn -> prog A) (h : trace) :
  exec E (try_except p catches handler) h
  = match exec E p h with
    | (s1, Raised e) =>
        if catches e
        then let (s2, o2) := exec E (handler e) (h ++ s1) in (s1 ++ s2, o2)
        else (s1, Raised e)
    | r => r
    end.
Proof.
  revert h; induction p as [a | e | | c k IH | o k IH]; intros h; simpl.
  - reflexivity.
  - rewrite app_nil_r. destruct (catches e); [|reflexivity].
    now destruct (exec E (handler e) h).
  - reflexivity.
  - rewrite IH.
    destruct (exec E (k (E h c)) (h ++ [EvCall c (E h c)])) as [s1 [a | e | ]];
      simpl; try reflexivity.
    destruct (catches e); [|reflexivity].
    rewrite <- app_assoc; simpl.
    now destruct (exec E (handler e) (h ++ EvCall c (E h c) :: s1)).
  - rewrite IH.
    destruct (exec E k (h ++ [EvOut o])) as [s1 [a | e | ]];
      simpl; try reflexivity.
    destruct (catches e); [|reflexivity].
    rewrite <- app_assoc; simpl.
    now destruct (exec E (handler e) (h ++ EvOut o :: s1)).
Qed.

Lemma exec_try_finally (A : Type) (p : prog A) (final : prog unit) (h : trace) :
  exec E (try_finally p final) h
  = match exec E p h with
    | (s1, Running) => (s1, Running)
    | (s1, o1) => finally_then s1 o1 (exec E final (h ++ s1))
    end.
Proof.
  unfold finally_then.
  revert h; induction p as [a | e | | c k IH | o k IH]; intros h; simpl.
  - rewrite exec_bind, app_nil_r.
    destruct (exec E final h) as [s [[] | e | ]]; simpl; try reflexivity.
    now rewrite app_nil_r.
  - rewrite exec_bind, app_nil_r.
    destruct (exec E final h) as [s [[] | e' | ]]; simpl; try reflexivity.
    now rewrite app_nil_r.
  - reflexivity.
  - rewrite IH.
    destruct (exec E (k (E h c)) (h ++ [EvCall c (E h c)])) as [s1 [a | e | ]];
      simpl; try reflexivity; now rewrite <- app_assoc.
  - rewrite IH.
    destruct (exec E k (h ++ [EvOut o])) as [s1 [a | e | ]];
      simpl; try reflexivity; now rewrite <- app_assoc.
Qed.

Lemma exec_for_in_cons (X S : Type) (x : X) (xs : list X)
      (body : X -> S -> prog (ctl S)) (st : S) (h : trace) :
  exec E (for_in (x :: xs) body st) h
  = and_then (exec E (body x st) h)
      (fun c s1 =>
         match c with
         | Next st' => exec E (for_in xs body st') (h ++ s1)
         | Break st' => ([], Returned (Break st'))
         end).
Proof.
  simpl. rewrite exec_bind.
  destruct (exec E (body x st) h) as [s1 [[st' | st'] | e | ]]; reflexivity.
Qed.

Lemma exec_for_in_app (X S : Type) (xs ys : list X)
      (body : X -> S -> prog (ctl S)) (st : S) (h : trace) :
  exec E (for_in (xs ++ ys) body st) h
  = and_then (exec E (for_in xs body st) h)
      (fun c s1 =>
         match c with
         | Next st' => exec E (for_in ys body st') (h ++ s1)
         | Break st' => ([], Returned (Break st'))
         end).
Proof.
  revert st h; induction xs as [| x xs IH]; intros st h.
  - simpl. rewrite app_nil_r. now destruct (exec E (for_in ys body st) h).
  - rewrite <- app_comm_cons, !exec_for_in_cons.
    destruct (exec E (body x st) h) as [s1 [[st' | st'] | e | ]];
      simpl; try reflexivity; [| now rewrite !app_nil_r].
    rewrite IH.
    destruct (exec E (for_in xs body st') (h ++ s1)) as [s2 [[st2 | st2] | e | ]];
      simpl; try reflexivity.
    + rewrite <- !app_assoc.
      destruct (exec E (for_in ys body st2) (h ++ s1 ++ s2)) as [s3 o3].
      now rewrite app_assoc.
    + now rewrite !app_nil_r.
Qed.

Lemma exec_for_each_nil (X S : Type) (body : X -> S -> prog S) (st : S)
      (h : trace) :
  exec E (for_each [] body st) h = ([], Returned st).
Proof. reflexivity. Qed.

Lemma exec_for_each_cons (X S : Type) (x : X) (xs : list X)
      (body : X -> S -> prog S) (st : S) (h : trace) :
  exec E (for_each (x :: xs) body st) h
  = and_then (exec E (body x st) h)
      (fun st' s1 => exec E (for_each xs body st') (h ++ s1)).
Proof.
  unfold for_each. rewrite exec_bind, exec_for_in_cons, exec_bind.
  destruct (exec E (body x st) h) as [s1 [st' | e | ]]; simpl; try reflexivity.
  rewrite !app_nil_r, exec_bind.
  destruct (exec E (for_in xs _ st') (h ++ s1)) as [s2 [[st2 | st2] | e | ]];
    simpl; now rewrite ?app_nil_r.
Qed.

Lemma and_then_returned (A B : Type) (r : trace * outcome A)
      (k : A -> trace -> trace * outcome B) (s : trace) (b : B) :
  and_then r k = (s, Returned b) ->
  exists (s1 : trace) (a : A) (s2 : trace),
    r = (s1, Returned a) /\ k a s1 = (s2, Returned b) /\ s = s1 ++ s2.
Proof.
  destruct r as [s1 [a | e | ]]; simpl; try discriminate.
  destruct (k a s1) as [s2 o2] eqn:Hk. intros [= <- ->].
  now exists s1, a, s2.
Qed.

Lemma exec_perform_bind (A : Type) (c : call) (f : resp c -> prog A) (h : trace) :
  exec E (x <- perform c ;; f x) h
  = match E h c with
    | inl e => ([EvCall c (inl e)], Raised e)
    | inr v => after (EvCall c (inr v)) (exec E (f v) (h ++ [EvCall c (inr v)]))
    end.
Proof.
  unfold after. simpl. destruct (E h c) as [e | v]; simpl; [reflexivity|].
  now destruct (exec E (f v) _).
Qed.

Lemma exec_perform (c : call) (h : trace) :
  exec E (perform c) h
  = ([EvCall c (E h c)],
     match E h c with inl e => Raised e | inr v => Returned v end).
Proof. simpl. now destruct (E h c). Qed.

Lemma exec_emit_bind (A : Type) (o : output) (p : prog A) (h : trace) :
  exec E (emit o ;; p) h = after (EvOut o) (exec E p (h ++ [EvOut o])).
Proof. unfold after. simpl. now destruct (exec E p _). Qed.

Lemma only_bind (ok : call -> bool) (A B : Type) (p : prog A) (f : A -> prog B) :
  only ok p -> (forall a, only ok (f a)) -> only ok (bind p f).
Proof.
  intros Hp Hf. induction Hp; simpl; try constructor; auto.
Qed.

Lemma only_try_except (ok : call -> bool) (A : Type) (p : prog A)
      (catches : exn -> bool) (handler : exn -> prog A) :
  only ok p -> (forall e, only ok (handler e)) ->
  only ok (try_except p catches handler).
Proof.
  intros Hp Hh. induction Hp; simpl; try constructor; auto.
  destruct (catches e); [apply Hh | constructor].
Qed.

Lemma only_for_in (ok : call -> bool) (X S : Type) (xs : list X)
      (body : X -> S -> prog (ctl S)) (st : S) :
  (forall x st', only ok (body x st')) -> only ok (for_in xs body st).
Proof.
  intros Hb. revert st; induction xs as [| x xs IH]; intros st; simpl.
  - constructor.
  - apply only_bind; [apply Hb|]. intros [st' | st']; [apply IH | constructor].
Qed.

Lemma only_for_each (ok : call -> bool) (X S : Type) (xs : list X)
      (body : X -> S -> prog S) (st : S) :
  (forall x st', only ok (body x st')) -> only ok (for_each xs body st).
Proof.
  intros Hb. unfold for_each. apply only_bind.
  - apply only_for_in. intros x st'. apply only_bind; [apply Hb|].
    intros a; constructor.
  - intros [st' | st']; constructor.
Qed.

Lemma only_for_stream (ok : call -> bool) (S : Type) (stream : message_stream)
      (body : chunk -> S -> prog (ctl S)) (st : S) :
  (forall x st', only ok (body x st')) -> only ok (for_stream stream body st).
Proof.
  intros Hb. unfold for_stream. apply only_bind; [now apply only_for_in|].
  intros [st' | st']; [|constructor].
  destruct (stream_failure stream); constructor.
Qed.

Lemma only_perform (ok : call -> bool) (c : call) :
  ok c = true -> only ok (perform c).
Proof.
  intros Hc. unfold perform. constructor; [assumption|].
  intros [e | v]; constructor.
Qed.

Lemma only_emit (ok : call -> bool) (o : output) : only ok (emit o).
Proof. unfold emit. repeat constructor. Qed.

(** A program that makes no call outside [ok] leaves no such call in its
    trace. *)
Lemma only_exec (ok : call -> bool) (A : Type) (p : prog A) (h : trace) :
  only ok p -> forallb ok (calls (fst (exec E p h))) = true.
Proof.
  intros Hp. revert h; induction Hp as [a | e | | c k Hc Hk IH | o k Hk IH];
    intros h; simpl; try reflexivity.
  - specialize (IH (E h c) (h ++ [EvCall c (E h c)])).
    destruct (exec E (k (E h c)) _) as [s o]. simpl in *.
    now rewrite Hc, IH.
  - specialize (IH (h ++ [EvOut o])).
    now destruct (exec E k _) as [s o'].
Qed.

End Runs.


(** ** Strings and traces *)

Lemma append_nil_r (s : string) : (s ++ EmptyString)%string = s.
Proof. induction s as [| c s IH]; simpl; now rewrite ?IH. Qed.

Lemma append_assoc (a b c : string) :
  ((a ++ b) ++ c)%string = (a ++ b ++ c)%string.
Proof. induction a as [| x a IH]; simpl; now rewrite ?IH. Qed.




Lemma remote_app (s t : trace) : remote (s ++ t) = remote s ++ remote t.
Proof.
  induction s as [| ev s IH]; simpl; [reflexivity|].
  destruct (exchange_of ev); simpl; now rewrite IH.
Qed.

Lemma calls_app (s t : trace) : calls (s ++ t) = calls s ++ calls t.
Proof.
  induction s as [| [c r | o] s IH]; simpl; now rewrite ?IH.
Qed.

Lemma parsed_texts_app (s t : trace) :
  parsed_texts (s ++ t) = parsed_texts s ++ parsed_texts t.
Proof.
  induction s as [| [c r | o] s IH]; simpl; [reflexivity| |assumption].
  destruct c; simpl; now rewrite ?IH.
Qed.

Lemma written_app (s t : trace) : written (s ++ t) = written s ++ written t.
Proof.
  induction s as [| [c r | o] s IH]; simpl; [reflexivity|assumption|].
  destruct o; simpl; now rewrite ?IH.
Qed.

Lemma listings_app (s t : trace) : listings (s ++ t) = listings s + listings t.
Proof.
  unfold listings. now rewrite calls_app, filter_app, length_app.
Qed.

Lemma written_typed (text : string) (delay : Q) :
  written (typed text delay) = list_ascii_of_string text.
Proof.
  unfold typed. induction (list_ascii_of_string text) as [| c cs IH]; simpl;
    now rewrite ?IH.
Qed.

Lemma calls_typed (text : string) (delay : Q) : calls (typed text delay) = [].
Proof.
  unfold typed. induction (list_ascii_of_string text) as [| c cs IH]; simpl;
    now rewrite ?IH.
Qed.

Lemma calls_typed_chunks (chunks : list chunk) : calls (typed_chunks chunks) = [].
Proof.
  induction chunks as [| [| cb | [t | p | ty] | | | | ty] rest IH]; simpl;
    try assumption; try reflexivity.
  now rewrite calls_app, calls_typed, IH.
Qed.

Lemma remote_no_calls (s : trace) : calls s = [] -> remote s = [].
Proof.
  induction s as [| [c r | o] s IH]; simpl; intros H;
    [reflexivity | discriminate | auto].
Qed.

Lemma parsed_texts_no_calls (s : trace) : calls s = [] -> parsed_texts s = [].
Proof.
  induction s as [| [c r | o] s IH]; simpl; intros H;
    [reflexivity | discriminate | auto].
Qed.

Lemma remote_no_exchange (s : trace) :
  forallb (fun c => negb (is_exchange c)) (calls s) = true -> remote s = [].
Proof.
  induction s as [| [c r | o] s IH]; simpl; intros H; auto.
  apply andb_prop in H as [Hc H]. destruct c; try discriminate Hc; auto.
Qed.

Lemma listings_none (s : trace) :
  forallb (fun c => negb (is_list_tools c)) (calls s) = true -> listings s = 0.
Proof.
  unfold listings. induction (calls s) as [| c cs IH]; simpl; intros H; auto.
  apply andb_prop in H as [Hc H]. destruct (is_list_tools c); [discriminate|auto].
Qed.

(** ** The client's methods, run *)

Section Client_runs.

Context {builtins : PyBuiltins}.
Variable E : env.

Lemma exec_print_streaming_text (text : string) (delay : Q) (h : trace) :
  exec E (print_streaming_text text delay) h = (typed text delay, Returned tt).
Proof.
  unfold print_streaming_text, typed.
  revert h; induction (list_ascii_of_string text) as [| c cs IH]; intros h.
  - reflexivity.
  - rewrite exec_for_each_cons. simpl. now rewrite IH.
Qed.


(** *** The first streaming loop *)

Lemma set_last_input_snoc (tcs : list tool_call) (tc : tool_call) (v : json) :
  set_last_input (tcs ++ [tc]) v = tcs ++ [mk_tool_call (tc_id tc) (tc_name tc) v].
Proof.
  induction tcs as [| t tcs IH]; simpl; [reflexivity|].
  rewrite IH. now destruct tcs.
Qed.

Lemma nonempty_snoc (X : Type) (l : list X) (x : X) : nonempty (l ++ [x]) = true.
Proof. now destruct l. Qed.

(** A chunk inside a block makes no call: text is typed out and collected,
    an argument fragment is added to the buffer when a tool call has been
    started. *)
Lemma exec_inside_block (body : list chunk) (st : stream_state) (h : trace) :
  forallb inside_block body = true ->
  exec E (for_in body handle_chunk st) h
  = (typed_chunks body,
     Returned (Next
       {| accumulated_text := accumulated_text st ++ stream_text body;
          tool_calls := tool_calls st;
          current_tool_input :=
            if nonempty (tool_calls st)
            then current_tool_input st ++ fragments body
            else current_tool_input st |})).
Proof.
  revert st h; induction body as [| c body IH]; intros st h Hin.
  - simpl. rewrite !append_nil_r. destruct st; simpl.
    now destruct (nonempty _).
  - simpl in Hin. apply andb_prop in Hin as [Hc Hin].
    rewrite exec_for_in_cons.
    destruct c as [| [| id name | ty] | [text | pj | ty] | | | | ty];
      try discriminate Hc; simpl; try (rewrite IH by assumption; reflexivity).
    + rewrite exec_bind, exec_print_streaming_text. simpl.
      rewrite IH by assumption. simpl.
      now rewrite app_nil_r, append_assoc.
    + destruct (nonempty (tool_calls st)) eqn:Hne; simpl;
        rewrite IH by assumption; simpl; rewrite Hne; [|reflexivity].
      now rewrite append_assoc.
Qed.

(** From the start of a tool-use block to just before its end. *)
Lemma exec_block_open (id name : string) (body : list chunk)
      (st : stream_state) (h : trace) :
  forallb inside_block body = true ->
  exec E (for_in (ContentBlockStart (ToolUseBlock id name) :: body)
            handle_chunk st) h
  = (typed_chunks body,
     Returned (Next
       {| accumulated_text := accumulated_text st ++ stream_text body;
          tool_calls := tool_calls st ++ [mk_tool_call id name empty_dict];
          current_tool_input := fragments body |})).
Proof.
  intros Hin. rewrite exec_for_in_cons. simpl.
  rewrite exec_inside_block by assumption. simpl.
  now rewrite nonempty_snoc.
Qed.

(** The end of a block. *)
Lemma exec_block_stop (st : stream_state) (h : trace) :
  exec E (handle_chunk ContentBlockStop st) h
  = if nonempty (tool_calls st) && truthy (current_tool_input st)
    then
      let r := E h (JsonLoads (current_tool_input st)) in
      ([EvCall (JsonLoads (current_tool_input st)) r],
       match r with
       | inr v =>
           Returned (Next {| accumulated_text := accumulated_text st;
                             tool_calls := set_last_input (tool_calls st) v;
                             current_tool_input := EmptyString |})
       | inl e =>
           if is_JSONDecodeError e
           then Returned (Next {| accumulated_text := accumulated_text st;
                                  tool_calls :=
                                    set_last_input (tool_calls st) empty_dict;
                                  current_tool_input := EmptyString |})
           else Raised e
       end)
    else
      ([], Returned (Next {| accumulated_text := accumulated_text st;
                             tool_calls := tool_calls st;
                             current_tool_input := EmptyString |})).
Proof.
  unfold handle_chunk.
  destruct (nonempty (tool_calls st) && truthy (current_tool_input st));
    [|reflexivity].
  simpl. destruct (E h (JsonLoads (current_tool_input st))) as [e | v]; simpl;
    [|reflexivity].
  now destruct (is_JSONDecodeError e).
Qed.

(** A whole tool-use block, from its start to its end. *)
Lemma exec_block (id name : string) (body : list chunk)
      (st : stream_state) (h : trace) :
  forallb inside_block body = true ->
  exec E (for_in (ContentBlockStart (ToolUseBlock id name)
                    :: body ++ [ContentBlockStop]) handle_chunk st) h
  = let closed v :=
      Returned (Next
        {| accumulated_text := accumulated_text st ++ stream_text body;
           tool_calls := tool_calls st ++ [mk_tool_call id name v];
           current_tool_input := EmptyString |}) in
    if truthy (fragments body)
    then
      let r := E (h ++ typed_chunks body) (JsonLoads (fragments body)) in
      (typed_chunks body ++ [EvCall (JsonLoads (fragments body)) r],
       match r with
       | inr v => closed v
       | inl e => if is_JSONDecodeError e then closed empty_dict else Raised e
       end)
    else (typed_chunks body, closed empty_dict).
Proof.
  intros Hin. rewrite app_comm_cons, exec_for_in_app, exec_block_open by assumption.
  unfold and_then. rewrite exec_for_in_cons, exec_block_stop.
  cbn [tool_calls current_tool_input accumulated_text].
  rewrite nonempty_snoc, !set_last_input_snoc. simpl.
  destruct (truthy (fragments body)); simpl; [|now rewrite app_nil_r].
  destruct (E (h ++ typed_chunks body) (JsonLoads (fragments body))) as [e | v];
    simpl; [destruct (is_JSONDecodeError e)|]; simpl;
    now rewrite ?set_last_input_snoc, ?app_nil_r.
Qed.


(** C1 (amended).  From the start of a tool-use block to the
    [content_block_stop] that closes it, the [partial_json] fragments are
    concatenated in arrival order into the buffer and nothing is parsed
    on the way; at the stop the buffer is handed to [json.loads] at most
    once: exactly once when it is not empty, and not at all when it is
    empty, in which case the input of the tool call stays [{}].  When the
    parse returns a value, that value becomes the input of the most
    recently started tool call.  Every [content_block_stop] that the loop
    gets past leaves the buffer empty. *)
Theorem arguments_buffered_and_parsed_at_stop
        (h : trace) (st : stream_state) (id name : string) (body : list chunk) :
  forallb inside_block body = true ->
  let start := ContentBlockStart (ToolUseBlock id name) in
  let buf := fragments body in
  let whole :=
    exec E (for_in (start :: body ++ [ContentBlockStop]) handle_chunk st) h in
  (exists st1 : stream_state,
      exec E (for_in (start :: body) handle_chunk st) h
      = (typed_chunks body, Returned (Next st1))
      /\ current_tool_input st1 = buf)
  /\ parsed_texts (typed_chunks body) = []
  /\ parsed_texts (fst whole) = (if truthy buf then [buf] else [])
  /\ (forall v : json,
        truthy buf = true ->
        E (h ++ typed_chunks body) (JsonLoads buf) = inr v ->
        exists st2 : stream_state,
          snd whole = Returned (Next st2)
          /\ tool_calls st2 = tool_calls st ++ [mk_tool_call id name v]
          /\ current_tool_input st2 = EmptyString)
  /\ (truthy buf = false ->
      exists st2 : stream_state,
        snd whole = Returned (Next st2)
        /\ tool_calls st2 = tool_calls st ++ [mk_tool_call id name empty_dict]
        /\ current_tool_input st2 = EmptyString)
  /\ (forall (st0 : stream_state) (h0 : trace) (st' : stream_state),
        snd (exec E (handle_chunk ContentBlockStop st0) h0) = Returned (Next st') ->
        current_tool_input st' = EmptyString).
Proof.
  intros Hin start buf whole.
  assert (Hquiet : parsed_texts (typed_chunks body) = [])
    by (apply parsed_texts_no_calls, calls_typed_chunks).
  split; [|split; [|split; [|split; [|split]]]].
  - eexists. unfold start. rewrite exec_block_open by assumption.
    split; reflexivity.
  - exact Hquiet.
  - unfold whole, start. rewrite exec_block by assumption. fold buf.
    destruct (truthy buf); simpl; [|exact Hquiet].
    now rewrite parsed_texts_app, Hquiet.
  - intros v Hbuf Hv. unfold whole, start.
    rewrite exec_block by assumption. fold buf. rewrite Hbuf. simpl.
    rewrite Hv. eexists. split; [reflexivity|]. split; reflexivity.
  - intros Hbuf. unfold whole, start.
    rewrite exec_block by assumption. fold buf. rewrite Hbuf. simpl.
    eexists. split; [reflexivity|]. split; reflexivity.
  - intros st0 h0 st'. rewrite exec_block_stop.
    destruct (nonempty (tool_calls st0) && truthy (current_tool_input st0));
      simpl.
    + destruct (E h0 (JsonLoads (current_tool_input st0))) as [e | v].
      * destruct (is_JSONDecodeError e); [|discriminate].
        intros [= <-]. reflexivity.
      * intros [= <-]. reflexivity.
    + intros [= <-]. reflexivity.
Qed.


(** *** The loop over the tool calls *)

Lemma after_inv (A : Type) (ev : event) (r : trace * outcome A)
      (s : trace) (o : outcome A) :
  after ev r = (s, o) -> exists s' : trace, s = ev :: s' /\ r = (s', o).
Proof.
  destruct r as [s' o']. unfold after. simpl. intros [= <- <-]. now exists s'.
Qed.

Lemma exec_follow_up_chunks (chunks : list chunk) (follow_up_text : string)
      (h : trace) :
  exec E (for_in chunks handle_follow_up_chunk follow_up_text) h
  = (typed_chunks chunks,
     Returned (Next (follow_up_text ++ stream_text chunks)%string)).
Proof.
  revert follow_up_text h; induction chunks as [| c chunks IH]; intros ft h.
  - simpl. now rewrite append_nil_r.
  - rewrite exec_for_in_cons.
    destruct c as [| cb | [text | pj | ty] | | | | ty]; simpl;
      try (rewrite IH; reflexivity).
    rewrite exec_bind, exec_print_streaming_text. simpl.
    now rewrite IH, app_nil_r, append_assoc.
Qed.

Lemma exec_follow_up_stream (stream : message_stream) (h : trace) :
  exec E (for_stream stream handle_follow_up_chunk EmptyString) h
  = (typed_chunks (stream_chunks stream),
     match stream_failure stream with
     | Some e => Raised e
     | None => Returned (stream_text (stream_chunks stream))
     end).
Proof.
  unfold for_stream. rewrite exec_bind, exec_follow_up_chunks. simpl.
  destruct (stream_failure stream); simpl; now rewrite app_nil_r.
Qed.

Lemma tool_result_text_cases (result : CallToolResult) :
  (exists text : string, tool_result_text result = Ret text)
  \/ (exists e : exn, tool_result_text result = Raise e).
Proof.
  unfold tool_result_text.
  destruct (result_content result) as [| [text | data | uri] rest]; eauto.
Qed.

Lemma exec_handle_tool_call_returned (self : MCPClient) (acc : string)
      (tc : tool_call) (st st' : tool_loop_state) (h s : trace) :
  exec E (handle_tool_call self acc tc st) h = (s, Returned st') ->
  exists (result : CallToolResult) (text : string) (stream : message_stream),
    tool_result_text result = Ret text
    /\ remote s
       = [ToolExchange (tc_name tc) (tc_input tc) (inr result);
          ModelExchange
            (tl_messages st ++ [assistant_message acc (tc_name tc);
                                mk_message "user" text]) None (inr stream)]
    /\ tl_messages st'
       = tl_messages st ++ [assistant_message acc (tc_name tc);
                            mk_message "user" text]
    /\ tl_final_text st'
       = (if truthy (stream_text (stream_chunks stream))
          then tl_final_text st ++ [stream_text (stream_chunks stream)]
          else tl_final_text st).
Proof.
  unfold handle_tool_call, print, print_end, self_session.
  rewrite exec_emit_bind. intros H.
  apply after_inv in H as (s1 & -> & H).
  destruct (session self) as [sess |]; [|discriminate H].
  cbn [bind] in H. rewrite exec_perform_bind in H.
  destruct (E _ (CallTool _ _ _)) as [e | result]; [discriminate H|].
  apply after_inv in H as (s2 & -> & H).
  destruct (tool_result_text_cases result) as [[text Htext] | [e Htext]];
    rewrite Htext in H; cbn [bind] in H; [|discriminate H].
  rewrite exec_emit_bind in H. apply after_inv in H as (s3 & -> & H).
  rewrite exec_emit_bind in H. apply after_inv in H as (s4 & -> & H).
  rewrite exec_emit_bind in H. apply after_inv in H as (s5 & -> & H).
  rewrite exec_perform_bind in H.
  destruct (E _ (Getenv _)) as [e | model]; [discriminate H|].
  apply after_inv in H as (s6 & -> & H).
  rewrite exec_perform_bind in H.
  destruct (E _ (MessagesCreate _ _ _ _)) as [e | stream]; [discriminate H|].
  apply after_inv in H as (s7 & -> & H).
  rewrite exec_bind, exec_follow_up_stream in H.
  destruct (stream_failure stream); [discriminate H|].
  simpl in H. injection H as <- <-.
  exists result, text, stream. split; [assumption|]. simpl.
  rewrite app_nil_r, (remote_no_calls _ (calls_typed_chunks _)).
  repeat split.
Qed.

Lemma exec_tool_loop_returned (self : MCPClient) (acc : string)
      (tcs : list tool_call) (st st' : tool_loop_state) (h s : trace) :
  exec E (for_each tcs (handle_tool_call self acc) st) h = (s, Returned st') ->
  (exists extra : list string, tl_final_text st' = tl_final_text st ++ extra)
  /\ (forall texts : list string,
        incl (tl_final_text st') texts ->
        rounds acc texts (tl_messages st) tcs (remote s)).
Proof.
  revert st h s; induction tcs as [| tc tcs IH]; intros st h s H.
  - rewrite exec_for_each_nil in H. injection H as <- <-. split.
    + exists []. now rewrite app_nil_r.
    + intros texts _. constructor.
  - rewrite exec_for_each_cons in H.
    destruct (exec E (handle_tool_call self acc tc st) h)
      as [s1 [st1 | e | ]] eqn:H1; simpl in H; try discriminate H.
    destruct (exec E (for_each tcs (handle_tool_call self acc) st1) (h ++ s1))
      as [s2 o2] eqn:H2.
    injection H as <- ->.
    apply IH in H2 as [[extra Hextra] Hrounds].
    apply exec_handle_tool_call_returned in H1
      as (result & text & stream & Htext & Hremote & Hmsgs & Hfinal).
    split.
    + rewrite Hextra, Hfinal.
      destruct (truthy _); [rewrite <- app_assoc|]; eauto.
    + intros texts Hincl. rewrite remote_app, Hremote. simpl.
      constructor; [assumption| |].
      * intros Hft. apply Hincl. rewrite Hextra, Hfinal, Hft.
        apply in_or_app; left. apply in_or_app; right. now left.
      * rewrite <- Hmsgs. now apply Hrounds.
Qed.

(** *** Which calls the parts of [process_query] can make *)

Lemma only_print_streaming_text (ok : call -> bool) (text : string) (delay : Q) :
  only ok (print_streaming_text text delay).
Proof.
  unfold print_streaming_text. apply only_for_each.
  intros c []. repeat constructor.
Qed.

Lemma only_handle_chunk (ok : call -> bool) (c : chunk) (st : stream_state) :
  (forall text, ok (JsonLoads text) = true) ->
  only ok (handle_chunk c st).
Proof.
  intros Hok.
  destruct c as [| [| id name | ty] | [text | pj | ty] | | | | ty];
    unfold handle_chunk; try (constructor; fail).
  - apply only_bind; [apply only_print_streaming_text | constructor].
  - destruct (nonempty (tool_calls st)); constructor.
  - apply only_bind; [|constructor].
    destruct (nonempty (tool_calls st) && truthy (current_tool_input st));
      [|constructor].
    apply only_bind; [|constructor].
    apply only_try_except; [now apply only_perform | constructor].
Qed.

Lemma only_handle_follow_up_chunk (ok : call -> bool) (c : chunk) (text : string) :
  only ok (handle_follow_up_chunk c text).
Proof.
  destruct c as [| cb | [t | pj | ty] | | | | ty]; simpl; try constructor.
  apply only_bind; [apply only_print_streaming_text | constructor].
Qed.

Lemma only_handle_tool_call (ok : call -> bool) (self : MCPClient)
      (acc : string) (tc : tool_call) (st : tool_loop_state) :
  (forall c, is_exchange c = true -> ok c = true) ->
  (forall var, ok (Getenv var) = true) ->
  only ok (handle_tool_call self acc tc st).
Proof.
  intros Hx Hg. unfold handle_tool_call, print, print_end, self_session.
  apply only_bind; [apply only_emit|]. intros _.
  apply only_bind; [destruct (session self); constructor|]. intros sess.
  apply only_bind; [apply only_perform; now apply Hx|]. intros result.
  apply only_bind.
  { unfold tool_result_text.
    destruct (result_content result) as [| [t | d | u] rest]; constructor. }
  intros text.
  do 3 (apply only_bind; [apply only_emit|]; intros _).
  apply only_bind; [apply only_perform; apply Hg|]. intros model.
  apply only_bind; [apply only_perform; now apply Hx|]. intros stream.
  apply only_bind; [|constructor].
  apply only_for_stream. intros; apply only_handle_follow_up_chunk.
Qed.

(** *** A query that returns *)

Lemma exec_for_stream_returned (S : Type) (stream : message_stream)
      (body : chunk -> S -> prog (ctl S)) (st st' : S) (h s : trace) :
  exec E (for_stream stream body st) h = (s, Returned st') ->
  exists c : ctl S,
    exec E (for_in (stream_chunks stream) body st) h = (s, Returned c)
    /\ ctl_state c = st'.
Proof.
  unfold for_stream. rewrite exec_bind. intros H.
  apply and_then_returned in H as (s1 & c & s2 & Hc & H & ->).
  exists c. destruct c as [st1 | st1]; simpl in *.
  - destruct (stream_failure stream); [discriminate H|].
    injection H as <- <-. now rewrite app_nil_r.
  - injection H as <- <-. now rewrite app_nil_r.
Qed.

Lemma exec_process_query_returned (self : MCPClient) (query : string)
      (h s : trace) (answer : string) :
  exec E (process_query self query) h = (s, Returned answer) ->
  exists (tools : list tool_param) (stream : message_stream)
         (c : ctl stream_state) (tl : tool_loop_state)
         (h1 s1 h2 s2 : trace),
    exec E (for_in (stream_chunks stream) handle_chunk init_stream_state) h1
    = (s1, Returned c)
    /\ exec E (for_each (tool_calls (ctl_state c))
                 (handle_tool_call self (accumulated_text (ctl_state c)))
                 {| tl_messages := [mk_message "user" query];
                    tl_final_text :=
                      if truthy (accumulated_text (ctl_state c))
                      then [accumulated_text (ctl_state c)] else [];
                    tl_tool_results := [] |}) h2
       = (s2, Returned tl)
    /\ remote s
       = ModelExchange [mk_message "user" query] (Some tools) (inr stream)
         :: remote s2
    /\ answer = join nl (tl_final_text tl)
    /\ (exists s' : trace, s = s' ++ [EvOut (Print nl nl)]).
Proof.
  unfold process_query, print, print_end, self_session. intros H.
  destruct (session self) as [sess |]; [|discriminate H].
  cbn [bind] in H. rewrite exec_perform_bind in H.
  destruct (E _ (ListTools _)) as [e | response]; [discriminate H|].
  apply after_inv in H as (t1 & -> & H).
  rewrite exec_emit_bind in H. apply after_inv in H as (t2 & -> & H).
  rewrite exec_perform_bind in H.
  destruct (E _ (Getenv _)) as [e | model]; [discriminate H|].
  apply after_inv in H as (t3 & -> & H).
  rewrite exec_perform_bind in H.
  destruct (E _ (MessagesCreate _ _ _ _)) as [e | stream]; [discriminate H|].
  apply after_inv in H as (t4 & -> & H).
  rewrite exec_emit_bind in H. apply after_inv in H as (t5 & -> & H).
  rewrite exec_bind in H.
  apply and_then_returned in H as (s1 & st & t6 & Hstream & H & ->).
  apply exec_for_stream_returned in Hstream as (c & Hc & <-).
  rewrite exec_bind in H.
  apply and_then_returned in H as (s2 & tl & t7 & Htools & H & ->).
  rewrite exec_emit_bind in H. apply after_inv in H as (t8 & -> & H).
  simpl in H. injection H as <- <-.
  eexists _, stream, c, tl, _, s1, _, s2.
  split; [exact Hc|]. split; [exact Htools|]. split; [|split].
  - simpl. rewrite !remote_app. simpl. rewrite app_nil_r.
    rewrite (remote_no_exchange s1); [reflexivity|].
    change s1 with (fst (s1, Returned c)). rewrite <- Hc.
    apply only_exec with (ok := fun x => negb (is_exchange x)).
    apply only_for_in. intros; now apply only_handle_chunk.
  - reflexivity.
  - eexists. rewrite !app_comm_cons, app_assoc. reflexivity.
Qed.

(** *** Which tool calls the first loop collects *)

Lemma map_id_name_set_last_input (tcs : list tool_call) (v : json) :
  map id_name (set_last_input tcs v) = map id_name tcs.
Proof.
  induction tcs as [| tc tcs IH]; [reflexivity|].
  destruct tcs as [| tc' tcs]; [reflexivity|].
  change (set_last_input (tc :: tc' :: tcs) v)
    with (tc :: set_last_input (tc' :: tcs) v).
  change (map id_name (tc :: set_last_input (tc' :: tcs) v))
    with (id_name tc :: map id_name (set_last_input (tc' :: tcs) v)).
  now rewrite IH.
Qed.

Lemma handle_chunk_returned (x : chunk) (st : stream_state) (h s : trace)
      (c : ctl stream_state) :
  exec E (handle_chunk x st) h = (s, Returned c) ->
  match x with
  | MessageStop => c = Break st
  | _ =>
      exists st' : stream_state,
        c = Next st'
        /\ map id_name (tool_calls st')
           = map id_name (tool_calls st) ++ started_tools [x]
  end.
Proof.
  destruct x as [| [| id name | ty] | [text | pj | ty] | | | | ty];
    try (simpl; intros [= <- <-]; eexists; split;
         [reflexivity | simpl; now rewrite ?app_nil_r, ?map_app]).
  - unfold handle_chunk. rewrite exec_bind, exec_print_streaming_text.
    simpl. intros [= <- <-]. eexists; split; [reflexivity|].
    simpl. now rewrite app_nil_r.
  - simpl. destruct (nonempty (tool_calls st)); simpl; intros [= <- <-];
      eexists; (split; [reflexivity|]); simpl; now rewrite app_nil_r.
  - rewrite exec_block_stop.
    destruct (nonempty (tool_calls st) && truthy (current_tool_input st)).
    + simpl. destruct (E h (JsonLoads (current_tool_input st))) as [e | v].
      * destruct (is_JSONDecodeError e); [|discriminate].
        intros [= <- <-]. eexists; split; [reflexivity|]. simpl.
        now rewrite map_id_name_set_last_input, app_nil_r.
      * intros [= <- <-]. eexists; split; [reflexivity|]. simpl.
        now rewrite map_id_name_set_last_input, app_nil_r.
    + intros [= <- <-]. eexists; split; [reflexivity|]. simpl.
      now rewrite app_nil_r.
  - simpl. now intros [= <- <-].
Qed.

Lemma exec_stream_loop_tools (chunks : list chunk) (st : stream_state)
      (h s : trace) (c : ctl stream_state) :
  exec E (for_in chunks handle_chunk st) h = (s, Returned c) ->
  map id_name (tool_calls (ctl_state c))
  = map id_name (tool_calls st) ++ started_tools (before_message_stop chunks).
Proof.
  revert st h s; induction chunks as [| x chunks IH]; intros st h s H.
  - simpl in H. injection H as <- <-. simpl. now rewrite app_nil_r.
  - rewrite exec_for_in_cons in H.
    apply and_then_returned in H as (s1 & c1 & s2 & Hx & H & ->).
    apply handle_chunk_returned in Hx.
    destruct x as [| [| id name | ty] | [text | pj | ty] | | | | ty];
      try (destruct Hx as (st' & -> & Hst'); apply IH in H;
           rewrite H, Hst'; simpl; now rewrite <- ?app_assoc, ?app_nil_r).
    subst c1. injection H as <- <-. simpl. now rewrite app_nil_r.
Qed.

(** *** The exchanges of a query that returns *)

Lemma rounds_steps (acc : string) (texts : list string) (msgs : list message)
      (tcs : list tool_call) (xs : list exchange) :
  rounds acc texts msgs tcs xs ->
  map step_of xs
  = flat_map (fun tc => [UseTool (tc_name tc) (tc_input tc); AskModel]) tcs.
Proof.
  induction 1 as [msgs | msgs tc tcs result text stream rest Ht Hin Hr IH];
    simpl; [reflexivity|]. now rewrite IH.
Qed.


(** C3 (amended).  A query that is answered makes its calls in this
    order: one request to the model, then, for every tool-use block that
    the model's response starts before its [message_stop], in the order
    of the blocks, one call of that tool followed by one further request
    to the model; the last thing it does is print.  The number of tools
    invoked and the number of follow-up requests both equal the number
    of those blocks. *)
Theorem one_round_per_tool_use_block
        (self : MCPClient) (query : string) (h s : trace) (answer : string) :
  exec E (process_query self query) h = (s, Returned answer) ->
  exists (tools : list tool_param) (stream : message_stream)
         (tcs : list tool_call),
    hd_error (remote s)
    = Some (ModelExchange [mk_message "user" query] (Some tools) (inr stream))
    /\ map id_name tcs
       = started_tools (before_message_stop (stream_chunks stream))
    /\ map step_of (remote s)
       = AskModel
         :: flat_map (fun tc => [UseTool (tc_name tc) (tc_input tc); AskModel])
                     tcs
    /\ (exists s' : trace, s = s' ++ [EvOut (Print nl nl)]).
Proof.
  intros H.
  apply exec_process_query_returned in H
    as (tools & stream & c & tl & h1 & s1 & h2 & s2
        & Hc & Htools & Hremote & _ & Hlast).
  exists tools, stream, (tool_calls (ctl_state c)).
  rewrite Hremote. split; [reflexivity|]. split; [|split; [|exact Hlast]].
  - now rewrite (exec_stream_loop_tools _ _ _ Hc).
  - apply exec_tool_loop_returned in Htools as [_ Hrounds].
    simpl. f_equal. eapply rounds_steps, Hrounds, incl_refl.
Qed.


(** *** Every query *)

Ltac only_steps :=
  repeat first
    [ apply only_emit
    | apply only_perform; reflexivity
    | apply only_for_stream; intros
    | apply only_for_each; intros
    | apply only_handle_chunk; intros; reflexivity
    | apply only_handle_tool_call;
      [ intros [] Hx; try discriminate Hx; reflexivity | intros; reflexivity ]
    | apply only_bind; [| intros ]
    | constructor ].



(** *** Listings *)

Lemma queries_app (s t : trace) : queries (s ++ t) = queries s + queries t.
Proof. unfold queries. now rewrite filter_app, length_app. Qed.

Lemma queries_no_input (s : trace) :
  forallb (fun c => negb (is_input c)) (calls s) = true -> queries s = 0.
Proof.
  unfold queries. induction s as [| [c r | o] s IH]; simpl; intros H; auto.
  apply andb_prop in H as [Hc H]. destruct c; try discriminate Hc; auto.
Qed.

Lemma process_query_lists_first
      (self : MCPClient) (sess : ClientSession) (query : string) (h : trace) :
  session self = Some sess ->
  exists (r : exn + list Tool) (rest : trace),
    fst (exec E (process_query self query) h) = EvCall (ListTools sess) r :: rest
    /\ listings rest = 0.
Proof.
  intros Hsess. unfold process_query, self_session. rewrite Hsess. cbn [bind].
  rewrite exec_perform_bind.
  destruct (E h (ListTools sess)) as [e | response].
  - now exists (inl e), [].
  - eexists (inr response), _. split; [reflexivity|].
    apply listings_none.
    apply only_exec with (ok := fun x => negb (is_list_tools x)).
    only_steps.
Qed.

Lemma process_query_listings
      (self : MCPClient) (sess : ClientSession) (query : string) (h : trace) :
  session self = Some sess ->
  listings (fst (exec E (process_query self query) h)) = 1.
Proof.
  intros Hsess.
  destruct (process_query_lists_first self query h Hsess)
    as (r & rest & -> & Hrest).
  change (EvCall (ListTools sess) r :: rest)
    with ([EvCall (ListTools sess) r] ++ rest).
  now rewrite listings_app, Hrest.
Qed.

Lemma process_query_queries (self : MCPClient) (query : string) (h : trace) :
  queries (fst (exec E (process_query self query) h)) = 0.
Proof.
  apply queries_no_input.
  apply only_exec with (ok := fun x => negb (is_input x)).
  unfold process_query, self_session.
  destruct (session self); only_steps.
Qed.

Lemma exec_connect_to_server_returned (self0 self' : MCPClient) (h0 s : trace) :
  exec E (connect_to_server self0) h0 = (s, Returned self') ->
  listings s = 1 /\ queries s = 0
  /\ exists sess : ClientSession, session self' = Some sess.
Proof.
  intros H. unfold connect_to_server, print in H.
  rewrite exec_perform_bind in H.
  destruct (E _ (StdioClient _)) as [e | tr]; [discriminate H|].
  apply after_inv in H as (t1 & -> & H).
  rewrite exec_perform_bind in H.
  destruct (E _ (EnterClientSession _)) as [e | s0]; [discriminate H|].
  apply after_inv in H as (t2 & -> & H).
  change (perform (Initialize s0) ;; ?k)
    with (x <- perform (Initialize s0) ;; (fun _ => k) x) in H.
  rewrite exec_perform_bind in H.
  destruct (E _ (Initialize _)) as [e | u]; [discriminate H|].
  apply after_inv in H as (t3 & -> & H).
  rewrite exec_perform_bind in H.
  destruct (E _ (ListTools _)) as [e | tools]; [discriminate H|].
  apply after_inv in H as (t4 & -> & H).
  rewrite exec_emit_bind in H. apply after_inv in H as (t5 & -> & H).
  simpl in H. injection H as <- <-.
  split; [reflexivity|]. split; [reflexivity|]. now exists s0.
Qed.

(** *** The chat loop *)

Lemma exec_while_true_S (n : nat) (body : prog loop_ctl) (h : trace) :
  exec E (while_true (S n) body) h
  = and_then (exec E body h)
      (fun c s1 =>
         match c with
         | LoopBreak => ([], Returned tt)
         | LoopContinue => exec E (while_true n body) (h ++ s1)
         end).
Proof.
  simpl. rewrite exec_bind.
  destruct (exec E body h) as [s1 [[|] | e | ]]; reflexivity.
Qed.

Lemma exec_chat_iteration (self : MCPClient) (h : trace) :
  exec E (chat_iteration self) h
  = match exec E (chat_try_block self) h with
    | (s, Raised e) =>
        if is_Exception e
        then (s ++ [EvOut (Print (nl ++ "Error: " ++ exn_str e) nl)],
              Returned LoopContinue)
        else (s, Raised e)
    | r => r
    end.
Proof.
  unfold chat_iteration. rewrite exec_try_except.
  destruct (exec E (chat_try_block self) h) as [s [c | e | ]]; reflexivity.
Qed.

Lemma exec_chat_try_block (self : MCPClient) (h : trace) :
  exec E (chat_try_block self) h
  = match E h (Input (nl ++ "Query: ")) with
    | inl e => ([EvCall (Input (nl ++ "Query: ")) (inl e)], Raised e)
    | inr line =>
        after (EvCall (Input (nl ++ "Query: ")) (inr line))
          (if String.eqb (str_lower (str_strip line)) "quit"
           then ([], Returned LoopBreak)
           else
             and_then
               (exec E (process_query self (str_strip line))
                  (h ++ [EvCall (Input (nl ++ "Query: ")) (inr line)]))
               (fun response _ =>
                  ([EvOut (Print (nl ++ response) nl)], Returned LoopContinue)))
    end.
Proof.
  unfold chat_try_block. rewrite exec_perform_bind.
  destruct (E h (Input (nl ++ "Query: "))) as [e | line]; [reflexivity|].
  f_equal. destruct (String.eqb _ _); [reflexivity|].
  rewrite exec_bind.
  destruct (exec E (process_query self (str_strip line)) _)
    as [s [response | e | ]]; reflexivity.
Qed.





(** C10.  Whenever the [try] block of [main] (connecting, then the chat
    loop) ends, whether by returning or by raising, [cleanup] runs: the
    events of [main] are those of the block followed by the closing of
    the exit stack. *)
Theorem cleanup_always_runs (fuel : nat) (h s : trace) (o : outcome unit) :
  exec E (main_body MCPClient_init fuel) h = (s, o) ->
  o <> Running ->
  exists o' : outcome unit,
    exec E (main fuel) h
    = (s ++ [EvCall Aclose (E (h ++ s) Aclose)], o')
    /\ o' <> Running.
Proof.
  intros Hbody Hdone. unfold main. rewrite exec_try_finally, Hbody.
  destruct o as [[] | e | ]; [| |contradiction];
    unfold finally_then, cleanup; rewrite (exec_perform E Aclose); simpl;
    destruct (E (h ++ s) Aclose) as [e' | []]; eexists; split;
      try reflexivity; discriminate.
Qed.

(** The loop lists the tools as often as it reads a line to process. *)
Lemma chat_iteration_listings (self : MCPClient) (sess : ClientSession) (h : trace) :
  session self = Some sess ->
  listings (fst (exec E (chat_iteration self) h))
  = queries (fst (exec E (chat_iteration self) h)).
Proof.
  intros Hsess. rewrite exec_chat_iteration, exec_chat_try_block.
  destruct (E h (Input (nl ++ "Query: "))) as [e | line].
  - destruct (is_Exception e); reflexivity.
  - unfold after.
    destruct (String.eqb (str_lower (str_strip line)) "quit") eqn:Hquit.
    + unfold listings, queries. simpl. now rewrite Hquit.
    + pose proof (process_query_listings self (str_strip line)
                    (h ++ [EvCall (Input (nl ++ "Query: ")) (inr line)]) Hsess)
        as Hl.
      pose proof (process_query_queries self (str_strip line)
                    (h ++ [EvCall (Input (nl ++ "Query: ")) (inr line)]))
        as Hq.
      destruct (exec E (process_query self (str_strip line)) _)
        as [s [response | e | ]]; simpl in Hl, Hq |- *.
      * change (EvCall ?c ?r :: ?t) with ([EvCall c r] ++ t).
        rewrite !listings_app, !queries_app, Hl, Hq.
        unfold listings, queries. simpl. now rewrite Hquit.
      * destruct (is_Exception e); simpl;
          change (EvCall ?c ?r :: ?t) with ([EvCall c r] ++ t);
          rewrite ?listings_app, ?queries_app, Hl, Hq;
          unfold listings, queries; simpl; now rewrite Hquit.
      * change (EvCall ?c ?r :: ?t) with ([EvCall c r] ++ t).
        rewrite !listings_app, !queries_app, Hl, Hq.
        unfold listings, queries. simpl. now rewrite Hquit.
Qed.

Lemma while_true_listings (self : MCPClient) (sess : ClientSession)
      (fuel : nat) (h : trace) :
  session self = Some sess ->
  listings (fst (exec E (while_true fuel (chat_iteration self)) h))
  = queries (fst (exec E (while_true fuel (chat_iteration self)) h)).
Proof.
  intros Hsess. revert h; induction fuel as [| n IH]; intros h; [reflexivity|].
  rewrite exec_while_true_S.
  pose proof (chat_iteration_listings self h Hsess) as Hit.
  destruct (exec E (chat_iteration self) h) as [s1 [[|] | e | ]];
    simpl in Hit |- *; try assumption.
  - specialize (IH (h ++ s1)).
    destruct (exec E (while_true n (chat_iteration self)) (h ++ s1)) as [s2 o2].
    simpl in IH |- *. now rewrite listings_app, queries_app, Hit, IH.
  - now rewrite app_nil_r.
Qed.

Lemma chat_loop_listings (self : MCPClient) (sess : ClientSession)
      (fuel : nat) (h : trace) :
  session self = Some sess ->
  listings (fst (exec E (chat_loop self fuel) h))
  = queries (fst (exec E (chat_loop self fuel) h)).
Proof.
  intros Hsess. unfold chat_loop, print. rewrite !exec_emit_bind.
  unfold after. simpl fst.
  change (EvOut ?a :: EvOut ?b :: ?t) with ([EvOut a; EvOut b] ++ t).
  rewrite listings_app, queries_app.
  now rewrite (while_true_listings self fuel _ Hsess).
Qed.

(** C2 (amended).  The tools are listed once in the handshake of
    [connect_to_server], and once more by every [process_query]: with an
    open session, the listing is the first thing a query does, and it
    does not list again before it ends.  A session whose handshake
    succeeds therefore lists the tools once more than it has read lines
    to process. *)
Theorem tools_are_listed_by_every_query
        (self : MCPClient) (sess : ClientSession) (query : string) (h : trace) :
  session self = Some sess ->
  (exists (r : exn + list Tool) (rest : trace),
      fst (exec E (process_query self query) h)
      = EvCall (ListTools sess) r :: rest
      /\ listings rest = 0)
  /\ listings (fst (exec E (process_query self query) h)) = 1
  /\ (forall (self0 self' : MCPClient) (h0 s : trace),
        exec E (connect_to_server self0) h0 = (s, Returned self') ->
        listings s = 1)
  /\ (forall (fuel : nat) (h0 s : trace) (self' : MCPClient),
        exec E (connect_to_server MCPClient_init) h0 = (s, Returned self') ->
        listings (fst (exec E (main fuel) h0))
        = 1 + queries (fst (exec E (main fuel) h0))).
Proof.
  intros Hsess.
  split; [now apply process_query_lists_first|].
  split; [now apply process_query_listings with (sess := sess)|].
  split.
  - intros self0 self' h0 s H.
    now apply exec_connect_to_server_returned in H.
  - intros fuel h0 s self' H.
    destruct (exec_connect_to_server_returned _ _ H) as (Hl & Hq & sess' & Hs').
    unfold main, main_body. rewrite exec_try_finally, exec_bind, H.
    unfold and_then.
    pose proof (chat_loop_listings self' fuel (h0 ++ s) Hs') as Hloop.
    destruct (exec E (chat_loop self' fuel) (h0 ++ s)) as [s2 o2].
    cbn [fst] in Hloop.
    destruct o2 as [[] | e | ]; cbv iota;
      unfold finally_then, cleanup; rewrite ?(exec_perform E Aclose);
      cbn [fst snd]; rewrite ?listings_app, ?queries_app, Hl, Hq, Hloop;
      unfold listings, queries; simpl; lia.
Qed.

End Client_runs.

(** ** Further properties of the client *)


Lemma list_ascii_of_string_app (a b : string) :
  list_ascii_of_string (a ++ b)
  = list_ascii_of_string a ++ list_ascii_of_string b.
Proof. induction a as [| c a IH]; simpl; now rewrite ?IH. Qed.

Lemma append_eq_empty (a b : string) :
  (a ++ b)%string = EmptyString -> a = EmptyString /\ b = EmptyString.
Proof. destruct a; simpl; [auto | discriminate]. Qed.

Lemma outputs_app (s t : trace) : outputs (s ++ t) = outputs s ++ outputs t.
Proof. induction s as [| [c r | o] s IH]; simpl; now rewrite ?IH. Qed.

Lemma pauses_app (s t : trace) : pauses (s ++ t) = pauses s ++ pauses t.
Proof.
  induction s as [| [c r | o] s IH]; simpl; [reflexivity|assumption|].
  destruct o; simpl; now rewrite ?IH.
Qed.


Lemma before_message_stop_no_stop (chunks : list chunk) :
  has_message_stop (before_message_stop chunks) = false.
Proof.
  induction chunks as [| [| cb | d | | | | ty] rest IH]; simpl; auto.
Qed.

Lemma before_message_stop_all (chunks : list chunk) :
  has_message_stop chunks = false -> before_message_stop chunks = chunks.
Proof.
  induction chunks as [| [| cb | d | | | | ty] rest IH]; simpl; intros H;
    try discriminate; now rewrite ?IH.
Qed.

Section More_runs.

Context {builtins : PyBuiltins}.
Variable E : env.


Lemma for_in_no_stop_next (chunks : list chunk) (st : stream_state)
      (h s : trace) (c : ctl stream_state) :
  has_message_stop chunks = false ->
  exec E (for_in chunks handle_chunk st) h = (s, Returned c) ->
  exists st' : stream_state, c = Next st'.
Proof.
  revert st h s; induction chunks as [| x chunks IH]; intros st h s Hstop H.
  - simpl in H. injection H as <- <-. now exists st.
  - rewrite exec_for_in_cons in H.
    apply and_then_returned in H as (s1 & c1 & s2 & Hx & H & ->).
    apply handle_chunk_returned in Hx.
    destruct x as [| cb | d | | | | ty]; try discriminate Hstop;
      destruct Hx as (st' & -> & _); now apply IH in H.
Qed.

(** The first loop on a run of chunks, from its run on the chunks before
    the first [message_stop]. *)
Lemma exec_for_in_before_stop (chunks : list chunk) (st : stream_state)
      (h : trace) :
  exec E (for_in chunks handle_chunk st) h
  = match exec E (for_in (before_message_stop chunks) handle_chunk st) h with
    | (s, Returned c) =>
        (s, Returned (if has_message_stop chunks
                      then Break (ctl_state c) else c))
    | r => r
    end.
Proof.
  revert st h; induction chunks as [| x chunks IH]; intros st h.
  - reflexivity.
  - destruct (match x with MessageStop => true | _ => false end) eqn:Hx.
    + destruct x; try discriminate Hx. reflexivity.
    + assert (Hb : before_message_stop (x :: chunks)
                   = x :: before_message_stop chunks)
        by (destruct x; try discriminate Hx; reflexivity).
      assert (Hs : has_message_stop (x :: chunks) = has_message_stop chunks)
        by (destruct x; try discriminate Hx; reflexivity).
      rewrite Hb, Hs, !exec_for_in_cons.
      destruct (exec E (handle_chunk x st) h) as [s1 [c1 | e | ]] eqn:H1;
        simpl; try reflexivity.
      apply handle_chunk_returned in H1.
      destruct x; try discriminate Hx; destruct H1 as (st' & -> & _);
        rewrite IH;
        destruct (exec E (for_in (before_message_stop chunks) handle_chunk st')
                    (h ++ s1)) as [s2 [c2 | e | ]]; reflexivity.
Qed.

(** The text the first loop collects and echoes. *)
Lemma exec_first_loop_text
        (chunks : list chunk) (st : stream_state) (h s : trace)
        (c : ctl stream_state) :
  exec E (for_in chunks handle_chunk st) h = (s, Returned c) ->
  accumulated_text (ctl_state c)
  = (accumulated_text st ++ stream_text (before_message_stop chunks))%string
  /\ written s
     = list_ascii_of_string (stream_text (before_message_stop chunks)).
Proof.
  rewrite exec_for_in_before_stop.
  assert (Hin : forall cs st0 h0 s0 c0,
             has_message_stop cs = false ->
             exec E (for_in cs handle_chunk st0) h0 = (s0, Returned c0) ->
             accumulated_text (ctl_state c0)
             = (accumulated_text st0 ++ stream_text cs)%string
             /\ written s0 = list_ascii_of_string (stream_text cs)).
  { induction cs as [| x cs IH]; intros st0 h0 s0 c0 Hstop H.
    - simpl in H. injection H as <- <-. simpl. now rewrite append_nil_r.
    - rewrite exec_for_in_cons in H.
      apply and_then_returned in H as (s1 & c1 & s2 & Hx & H & ->).
      rewrite written_app.
      destruct x as [| [| id name | ty] | [text | pj | ty] | | | | ty];
        try discriminate Hstop; simpl in Hstop;
        try (simpl in Hx; injection Hx as <- <-;
             now apply IH in H).
      + unfold handle_chunk in Hx.
        rewrite exec_bind, exec_print_streaming_text in Hx. simpl in Hx.
        injection Hx as <- <-.
        apply IH in H as [Ha Hw]; [|assumption]. simpl in Ha |- *.
        rewrite Ha, Hw, app_nil_r, written_typed, append_assoc.
        now rewrite list_ascii_of_string_app.
      + simpl in Hx. destruct (nonempty (tool_calls st0)); simpl in Hx;
          injection Hx as <- <-; now apply IH in H.
      + rewrite exec_block_stop in Hx.
        destruct (nonempty (tool_calls st0) && truthy (current_tool_input st0)).
        * simpl in Hx.
          destruct (E h0 (JsonLoads (current_tool_input st0))) as [e | v].
          -- destruct (is_JSONDecodeError e); [|discriminate Hx].
             injection Hx as <- <-. now apply IH in H.
          -- injection Hx as <- <-. now apply IH in H.
        * injection Hx as <- <-. now apply IH in H. }
  destruct (exec E (for_in (before_message_stop chunks) handle_chunk st) h)
    as [s0 [c0 | e | ]] eqn:H0; try discriminate.
  intros [= <- <-].
  apply Hin in H0; [|apply before_message_stop_no_stop].
  now destruct (has_message_stop chunks).
Qed.

(** X2.  Whenever the first loop of [process_query] gets through a run of
    chunks, the text it has collected is the text it started with
    followed by the text fragments that came before the first
    [message_stop], in order, and the characters it has written to the
    terminal are exactly those fragments. *)
Theorem streamed_text_is_echoed_and_collected
        (chunks : list chunk) (st : stream_state) (h s : trace)
        (c : ctl stream_state) :
  exec E (for_in chunks handle_chunk st) h = (s, Returned c) ->
  accumulated_text (ctl_state c)
  = (accumulated_text st ++ stream_text (before_message_stop chunks))%string
  /\ written s
     = list_ascii_of_string (stream_text (before_message_stop chunks)).
Proof.
  intros H. destruct (exec_first_loop_text _ _ _ H) as [Htext Hwritten].
  split; [exact Htext | exact Hwritten].
Qed.

(** X3.  Once a [message_stop] has arrived, the first loop looks at
    nothing more: the chunks after it are ignored, and so is a failure
    of the stream. *)
Theorem nothing_is_read_after_message_stop
        (chunks : list chunk) (failure : option exn) (st : stream_state)
        (h : trace) :
  has_message_stop chunks = true ->
  exec E (for_stream (mk_stream chunks failure) handle_chunk st) h
  = exec E (for_stream (mk_stream (before_message_stop chunks) None)
              handle_chunk st) h.
Proof.
  intros Hstop. unfold for_stream. rewrite !exec_bind. simpl stream_chunks.
  rewrite exec_for_in_before_stop, Hstop.
  destruct (exec E (for_in (before_message_stop chunks) handle_chunk st) h)
    as [s [c | e | ]] eqn:H0; try reflexivity.
  destruct (for_in_no_stop_next _ _ _ (before_message_stop_no_stop chunks) H0)
    as [st' ->].
  reflexivity.
Qed.

(** X4.  A tool-use block that is cut short by [message_stop] before its
    [content_block_stop] still leaves a tool call, with input [{}]: the
    argument text received for it stays in the buffer and is never
    parsed. *)
Theorem tool_block_cut_short_keeps_empty_input
        (id name : string) (body rest : list chunk) (st : stream_state)
        (h : trace) :
  forallb inside_block body = true ->
  exec E (for_in (ContentBlockStart (ToolUseBlock id name)
                    :: body ++ MessageStop :: rest) handle_chunk st) h
  = (typed_chunks body,
     Returned (Break
       {| accumulated_text := accumulated_text st ++ stream_text body;
          tool_calls := tool_calls st ++ [mk_tool_call id name empty_dict];
          current_tool_input := fragments body |}))
  /\ parsed_texts (typed_chunks body) = [].
Proof.
  intros Hin. split.
  - rewrite app_comm_cons, exec_for_in_app, exec_block_open by assumption.
    unfold and_then. rewrite exec_for_in_cons. simpl. now rewrite app_nil_r.
  - apply parsed_texts_no_calls, calls_typed_chunks.
Qed.

(** X5.  Only [JSONDecodeError] is swallowed at the end of a block: any
    other exception of [json.loads] ends the loop there and is raised,
    whatever chunks were still to come. *)
Theorem other_parse_errors_are_raised
        (id name : string) (body rest : list chunk) (st : stream_state)
        (h : trace) (e : exn) :
  forallb inside_block body = true ->
  truthy (fragments body) = true ->
  E (h ++ typed_chunks body) (JsonLoads (fragments body)) = inl e ->
  is_JSONDecodeError e = false ->
  exec E (for_in ((ContentBlockStart (ToolUseBlock id name)
                     :: body ++ [ContentBlockStop]) ++ rest) handle_chunk st) h
  = (typed_chunks body ++ [EvCall (JsonLoads (fragments body)) (inl e)],
     Raised e).
Proof.
  intros Hin Hbuf He Hclass.
  rewrite exec_for_in_app, exec_block by assumption.
  cbv zeta. rewrite Hbuf, He, Hclass. reflexivity.
Qed.

(** X6.  Chunks that start no tool-use block and carry no argument text
    (text blocks, for one) leave the tool calls collected so far as they
    are, inputs included, and parse nothing. *)
Theorem text_leaves_tool_calls_alone
        (chunks : list chunk) (st : stream_state) (h s : trace)
        (c : ctl stream_state) :
  fragments chunks = EmptyString ->
  started_tools chunks = [] ->
  current_tool_input st = EmptyString ->
  exec E (for_in chunks handle_chunk st) h = (s, Returned c) ->
  tool_calls (ctl_state c) = tool_calls st
  /\ current_tool_input (ctl_state c) = EmptyString
  /\ parsed_texts s = [].
Proof.
  revert st h s; induction chunks as [| x chunks IH];
    intros st h s Hfrag Hstart Hbuf H.
  - simpl in H. injection H as <- <-. auto.
  - rewrite exec_for_in_cons in H.
    apply and_then_returned in H as (s1 & c1 & s2 & Hx & H & ->).
    rewrite parsed_texts_app.
    destruct x as [| [| id name | ty] | [text | pj | ty] | | | | ty];
      try discriminate Hstart; simpl in Hfrag, Hstart;
      try (simpl in Hx; injection Hx as <- <-;
           now apply IH in H).
    + unfold handle_chunk in Hx.
      rewrite exec_bind, exec_print_streaming_text in Hx. simpl in Hx.
      injection Hx as <- <-.
      apply IH in H as (Ht & Hb & Hp); try assumption.
      rewrite app_nil_r, Hp, app_nil_r.
      rewrite (parsed_texts_no_calls _ (calls_typed text (1 # 100))). auto.
    + apply append_eq_empty in Hfrag as [-> Hfrag].
      simpl in Hx. destruct (nonempty (tool_calls st)); simpl in Hx;
        injection Hx as <- <-; apply IH in H; try assumption.
      simpl. now rewrite append_nil_r.
    + rewrite exec_block_stop, Hbuf, andb_false_r in Hx.
      injection Hx as <- <-. now apply IH in H.
    + simpl in Hx. injection Hx as <- <-. injection H as <- <-. auto.
Qed.

(** *** Queries, in full *)





Lemma filter_truthy_cons (text : string) (texts : list string) :
  filter truthy (text :: texts)
  = (if truthy text then [text] else []) ++ filter truthy texts.
Proof. simpl. now destruct (truthy text). Qed.





(** X9.  A query that gets as far as its first request to the model has
    begun by listing the tools and reading [ANTHROPIC_MODEL]; the request
    carries the model name it read (none when the variable is unset), a
    limit of 1000 tokens, the query as its only message, and one tool
    entry per listed tool, in the order of the listing, with the
    tool's name, description and schema. *)
Theorem first_request_offers_the_listed_tools
        (self : MCPClient) (sess : ClientSession) (query : string) (h : trace) :
  session self = Some sess ->
  remote (fst (exec E (process_query self query) h)) <> [] ->
  exists (response : list Tool) (text : string) (model : option string)
         (ans : exn + message_stream) (rest : trace),
    fst (exec E (process_query self query) h)
    = EvCall (ListTools sess) (inr response)
      :: EvOut (Print text nl)
      :: EvCall (Getenv "ANTHROPIC_MODEL") (inr model)
      :: EvCall (MessagesCreate model 1000 [mk_message "user" query]
                   (Some (map available_tool response))) ans
      :: rest
    /\ map tp_name (map available_tool response) = map tool_name response.
Proof.
  intros Hsess. unfold process_query, print, print_end, self_session.
  rewrite Hsess. cbn [bind]. rewrite exec_perform_bind.
  destruct (E _ (ListTools _)) as [e | response]; [now intros []|].
  rewrite exec_emit_bind, exec_perform_bind.
  destruct (E _ (Getenv _)) as [e | model]; [now intros []|].
  rewrite exec_perform_bind. intros _.
  exists response. eexists. exists model.
  destruct (E _ (MessagesCreate _ _ _ _)) as [e | stream].
  - eexists (inl e), _. split; [reflexivity|]. now rewrite map_map.
  - eexists (inr stream), _. split; [reflexivity|]. now rewrite map_map.
Qed.

(** X10.  When a tool returns an empty content list, indexing its first
    item fails: the loop over the tool calls raises [IndexError] right
    after the call, before anything is appended to the conversation and
    without a follow-up request to the model. *)
Theorem empty_tool_result_raises_index_error
        (self : MCPClient) (sess : ClientSession) (acc : string)
        (tc : tool_call) (st : tool_loop_state) (h : trace) (text : string)
        (result : CallToolResult) :
  session self = Some sess ->
  text = (nl ++ nl ++ "🔧 Calling tool " ++ repr_tool_call tc ++ "...")%string ->
  E (h ++ [EvOut (Print text nl)]) (CallTool sess (tc_name tc) (tc_input tc))
  = inr result ->
  result_content result = [] ->
  exec E (handle_tool_call self acc tc st) h
  = ([EvOut (Print text nl);
      EvCall (CallTool sess (tc_name tc) (tc_input tc)) (inr result)],
     Raised (mk_exn IndexError "list index out of range")).
Proof.
  intros Hsess -> Hcall Hempty.
  unfold handle_tool_call, print, self_session.
  rewrite exec_emit_bind, Hsess. cbn [bind].
  rewrite exec_perform_bind, Hcall.
  unfold tool_result_text. rewrite Hempty. reflexivity.
Qed.

Lemma alternating_app (b : bool) (l l' : list message) :
  alternating b (l ++ l')
  = alternating b l
    && alternating (if Nat.even (length l) then b else negb b) l'.
Proof.
  revert b; induction l as [| m l IH]; intros b; [reflexivity|].
  cbn [alternating app length].
  rewrite IH, <- andb_assoc, Nat.even_succ, <- Nat.negb_even.
  destruct (Nat.even (length l)); simpl; now rewrite ?negb_involutive.
Qed.

Lemma rounds_requests (acc : string) (texts : list string)
      (msgs : list message) (tcs : list tool_call) (xs : list exchange) :
  rounds acc texts msgs tcs xs ->
  forall (n : nat) (first : message),
    length msgs = 2 * n + 1 ->
    alternating true msgs = true ->
    hd_error msgs = Some first ->
    map (@length message) (requests xs)
    = map (fun i => 2 * i + 1) (seq (S n) (length tcs))
    /\ Forall (fun m => alternating true m = true /\ hd_error m = Some first)
              (requests xs).
Proof.
  induction 1 as [msgs | msgs tc tcs result text stream rest Ht Hin Hr IH];
    intros n first Hlen Halt Hhd; simpl; [auto|].
  assert (Hlen' : length (msgs ++ [assistant_message acc (tc_name tc);
                                    mk_message "user" text]) = 2 * S n + 1)
    by (rewrite length_app; simpl; lia).
  assert (Halt' : alternating true
                    (msgs ++ [assistant_message acc (tc_name tc);
                              mk_message "user" text]) = true).
  { rewrite alternating_app, Halt, Hlen.
    replace (2 * n + 1) with (S (2 * n)) by lia.
    rewrite Nat.even_succ, <- Nat.negb_even, Nat.even_mul. reflexivity. }
  assert (Hhd' : hd_error (msgs ++ [assistant_message acc (tc_name tc);
                                     mk_message "user" text]) = Some first)
    by (destruct msgs; [discriminate Hhd | exact Hhd]).
  destruct (IH (S n) first Hlen' Halt' Hhd') as [IH1 IH2].
  split.
  - rewrite Hlen', IH1. reflexivity.
  - constructor; [split; assumption | exact IH2].
Qed.

(** X11.  In a query that returns, the i-th request to the model (counting
    from 0) carries 2i+1 messages; every request starts with the user's
    query, and its roles alternate: user, assistant, user, and so on. *)
Theorem requests_alternate_and_grow_by_two
        (self : MCPClient) (query : string) (h s : trace) (answer : string) :
  exec E (process_query self query) h = (s, Returned answer) ->
  map (@length message) (requests (remote s))
  = map (fun i => 2 * i + 1) (seq 0 (length (requests (remote s))))
  /\ Forall (fun m => alternating true m = true
                     /\ hd_error m = Some (mk_message "user" query))
            (requests (remote s)).
Proof.
  intros H.
  apply exec_process_query_returned in H
    as (tools & stream & c & tl & h1 & s1 & h2 & s2
        & Hc & Htools & -> & _ & _).
  apply exec_tool_loop_returned in Htools as [_ Hrounds].
  specialize (Hrounds _ (incl_refl _)). simpl in Hrounds.
  destruct (@rounds_requests _ _ _ _ _ Hrounds 0 (mk_message "user" query)
              eq_refl eq_refl eq_refl) as [Hlen Hall].
  simpl. split.
  - rewrite Hlen. f_equal.
    rewrite <- (length_map (@length message) (requests (remote s2))), Hlen.
    now rewrite length_map, length_seq.
  - constructor; [split; reflexivity | exact Hall].
Qed.


Ltac within_calls :=
  repeat first
    [ apply only_emit
    | apply only_perform; reflexivity
    | apply only_for_stream; intros
    | apply only_for_each; intros
    | apply only_handle_chunk; intros; reflexivity
    | apply only_handle_tool_call;
      [ intros [] Hx; try discriminate Hx; reflexivity | intros; reflexivity ]
    | apply only_bind; [| intros ]
    | constructor ].

(** X13.  Whatever it is answered, a query calls nothing but
    [list_tools], [os.getenv], [messages.create], [json.loads] and
    [call_tool]: it never reads from the prompt, and it neither opens,
    initializes nor closes the session. *)
Theorem query_makes_only_query_calls
        (self : MCPClient) (query : string) (h : trace) :
  forallb query_call (calls (fst (exec E (process_query self query) h))) = true.
Proof.
  apply only_exec. unfold process_query, self_session.
  destruct (session self); within_calls.
Qed.

(** *** The handshake, the loop and [main] *)

Lemma exec_connect_to_server_trace (self self' : MCPClient) (h s : trace) :
  exec E (connect_to_server self) h = (s, Returned self') ->
  exists (transport : handle * handle) (s0 : ClientSession) (tools : list Tool),
    s = [EvCall (StdioClient server_params) (inr transport);
         EvCall (EnterClientSession
                   (mk_ClientSession (fst transport) (snd transport)))
                (inr s0);
         EvCall (Initialize s0) (inr tt);
         EvCall (ListTools s0) (inr tools);
         EvOut (Print (nl ++ "Connected to server with tools: "
                          ++ repr_names (map tool_name tools)) nl)]
    /\ self' = {| session := Some s0;
                  stdio := Some (fst transport);
                  write := Some (snd transport) |}.
Proof.
  intros H. unfold connect_to_server, print in H.
  rewrite exec_perform_bind in H.
  destruct (E _ (StdioClient _)) as [e | tr]; [discriminate H|].
  apply after_inv in H as (t1 & -> & H).
  rewrite exec_perform_bind in H.
  destruct (E _ (EnterClientSession _)) as [e | s0]; [discriminate H|].
  apply after_inv in H as (t2 & -> & H).
  change (perform (Initialize s0) ;; ?k)
    with (x <- perform (Initialize s0) ;; (fun _ => k) x) in H.
  rewrite exec_perform_bind in H.
  destruct (E _ (Initialize _)) as [e | []]; [discriminate H|].
  apply after_inv in H as (t3 & -> & H).
  rewrite exec_perform_bind in H.
  destruct (E _ (ListTools _)) as [e | tools]; [discriminate H|].
  apply after_inv in H as (t4 & -> & H).
  rewrite exec_emit_bind in H. apply after_inv in H as (t5 & -> & H).
  simpl in H. injection H as <- <-.
  now exists tr, s0, tools.
Qed.

(** X14.  The handshake goes through its four steps in order: it opens
    the transport, enters a session built on the transport's two
    streams, initializes it and lists the tools; only then does it print
    the names of the tools, and the session it leaves in the client is
    the one it entered.  When a step raises, that exception is raised,
    no later step is made and nothing is printed. *)
Theorem handshake_is_four_steps_then_a_print
        (self : MCPClient) (h s : trace) (o : outcome MCPClient) :
  exec E (connect_to_server self) h = (s, o) ->
  (forall self' : MCPClient,
      o = Returned self' ->
      exists (transport : handle * handle) (s0 : ClientSession)
             (tools : list Tool),
        s = [EvCall (StdioClient server_params) (inr transport);
             EvCall (EnterClientSession
                       (mk_ClientSession (fst transport) (snd transport)))
                    (inr s0);
             EvCall (Initialize s0) (inr tt);
             EvCall (ListTools s0) (inr tools);
             EvOut (Print (nl ++ "Connected to server with tools: "
                              ++ repr_names (map tool_name tools)) nl)]
        /\ session self' = Some s0)
  /\ (forall e : exn,
        o = Raised e ->
        outputs s = []
        /\ length s <= 4
        /\ exists (s0 : trace) (c : call), s = s0 ++ [EvCall c (inl e)]).
Proof.
  intros H. split.
  - intros self' ->.
    apply exec_connect_to_server_trace in H
      as (transport & s0 & tools & -> & ->).
    now exists transport, s0, tools.
  - intros e ->. unfold connect_to_server, print in H.
    rewrite exec_perform_bind in H.
    destruct (E _ (StdioClient _)) as [e1 | tr].
    { injection H as <- <-. split; [reflexivity|]. split; [simpl; lia|].
      exists [], (StdioClient server_params). reflexivity. }
    apply after_inv in H as (t1 & -> & H).
    rewrite exec_perform_bind in H.
    destruct (E _ (EnterClientSession _)) as [e2 | s0].
    { injection H as <- <-. split; [reflexivity|]. split; [simpl; lia|].
      eexists [_], (EnterClientSession _). reflexivity. }
    apply after_inv in H as (t2 & -> & H).
    change (perform (Initialize s0) ;; ?k)
      with (x <- perform (Initialize s0) ;; (fun _ => k) x) in H.
    rewrite exec_perform_bind in H.
    destruct (E _ (Initialize _)) as [e3 | []].
    { injection H as <- <-. split; [reflexivity|]. split; [simpl; lia|].
      eexists [_; _], (Initialize s0). reflexivity. }
    apply after_inv in H as (t3 & -> & H).
    rewrite exec_perform_bind in H.
    destruct (E _ (ListTools _)) as [e4 | tools].
    { injection H as <- <-. split; [reflexivity|]. split; [simpl; lia|].
      eexists [_; _; _], (ListTools s0). reflexivity. }
    apply after_inv in H as (t4 & -> & H).
    rewrite exec_emit_bind in H. apply after_inv in H as (t5 & -> & H).
    discriminate H.
Qed.

Lemma exec_loop_at_end_of_input (self : MCPClient) (e : exn) (fuel : nat)
      (h : trace) :
  (forall h' : trace, E h' (Input (nl ++ "Query: ")) = inl e) ->
  is_Exception e = true ->
  exec E (while_true fuel (chat_iteration self)) h
  = (concat (repeat [EvCall (Input (nl ++ "Query: ")) (inl e);
                     EvOut (Print (nl ++ "Error: " ++ exn_str e) nl)] fuel),
     Running).
Proof.
  intros Hread He. revert h; induction fuel as [| n IH]; intros h.
  - reflexivity.
  - rewrite exec_while_true_S, exec_chat_iteration, exec_chat_try_block.
    rewrite Hread, He. simpl. now rewrite IH.
Qed.

(** X15.  When every read at the prompt raises the same instance of
    [Exception] (as [input] does once the input has ended), the chat
    loop never ends: each iteration reads, prints the error and starts
    over; and so [main], once connected, never gets to [cleanup]. *)
Theorem loop_spins_when_input_keeps_failing
        (e : exn) (fuel : nat) (h s1 : trace) (self' : MCPClient) :
  (forall h' : trace, E h' (Input (nl ++ "Query: ")) = inl e) ->
  is_Exception e = true ->
  exec E (connect_to_server MCPClient_init) h = (s1, Returned self') ->
  exec E (while_true fuel (chat_iteration self')) h
  = (concat (repeat [EvCall (Input (nl ++ "Query: ")) (inl e);
                     EvOut (Print (nl ++ "Error: " ++ exn_str e) nl)] fuel),
     Running)
  /\ exec E (main fuel) h
     = (s1 ++ [EvOut (Print (nl ++ "MCP Client Started!") nl);
               EvOut (Print "Type your queries or 'quit' to exit." nl)]
           ++ concat (repeat [EvCall (Input (nl ++ "Query: ")) (inl e);
                              EvOut (Print (nl ++ "Error: " ++ exn_str e) nl)]
                             fuel),
        Running).
Proof.
  intros Hread He Hconnect. split.
  - now apply exec_loop_at_end_of_input.
  - unfold main, main_body. rewrite exec_try_finally, exec_bind, Hconnect.
    unfold and_then, chat_loop, print. rewrite !exec_emit_bind.
    rewrite (@exec_loop_at_end_of_input self' e fuel _ Hread He). reflexivity.
Qed.

(** X16.  [main] ends the way its [try] block ended, unless closing the
    exit stack raises: then that exception is what [main] raises, and
    the exception of the block, if there was one, is lost. *)
Theorem cleanup_failure_replaces_the_outcome
        (fuel : nat) (h s : trace) (o : outcome unit) :
  exec E (main_body MCPClient_init fuel) h = (s, o) ->
  o <> Running ->
  snd (exec E (main fuel) h)
  = match E (h ++ s) Aclose with
    | inl e' => Raised e'
    | inr _ => o
    end.
Proof.
  intros Hbody Hdone. unfold main. rewrite exec_try_finally, Hbody.
  destruct o as [[] | e | ]; [| |contradiction];
    unfold finally_then, cleanup; rewrite (exec_perform E Aclose); simpl;
    now destruct (E (h ++ s) Aclose).
Qed.

(** X17.  When the handshake raises, the chat loop is never entered:
    nothing is read at the prompt, [cleanup] runs right after the failed
    step, and [main] raises the exception of the handshake (or that of
    [cleanup], if closing fails too). *)
Theorem failed_handshake_skips_the_loop
        (fuel : nat) (h s : trace) (e : exn) :
  exec E (connect_to_server MCPClient_init) h = (s, Raised e) ->
  exec E (main fuel) h
  = (s ++ [EvCall Aclose (E (h ++ s) Aclose)],
     match E (h ++ s) Aclose with
     | inl e' => Raised e'
     | inr _ => Raised e
     end)
  /\ filter is_input (calls s) = [].
Proof.
  intros H. split.
  - unfold main, main_body. rewrite exec_try_finally, exec_bind, H.
    unfold and_then, finally_then, cleanup.
    rewrite (exec_perform E Aclose). simpl.
    now destruct (E (h ++ s) Aclose).
  - assert (Hok : forallb (fun c => negb (is_input c)) (calls s) = true).
    { change s with (fst (s, @Raised MCPClient e)). rewrite <- H.
      apply only_exec. unfold connect_to_server. within_calls. }
    induction (calls s) as [| c cs IH]; [reflexivity|].
    simpl in Hok |- *. apply andb_prop in Hok as [Hc Hcs].
    destruct (is_input c); [discriminate Hc | auto].
Qed.

End More_runs.

(** ** The properties on examples *)

Import Ascii_builtins.

(** Two fragments around a text fragment are parsed once, as one text. *)
Lemma arguments_buffered_and_parsed_at_stop_witness :
  forallb inside_block argument_fragments = true
  /\ parsed_texts
       (fst (exec one_tool_env
               (for_in (ContentBlockStart (ToolUseBlock "toolu_1" "fetch")
                          :: argument_fragments ++ [ContentBlockStop])
                       handle_chunk init_stream_state) []))
     = ["42"].
Proof.
  split; [reflexivity|].
  exact (proj1 (proj2 (proj2
           (@arguments_buffered_and_parsed_at_stop one_tool_env []
              init_stream_state "toolu_1" "fetch" argument_fragments
              eq_refl)))).
Defined.

(** C1, as stated, fails.  The model starts a tool-use block and closes it
    with a [content_block_stop] without having sent any argument text:
    nothing is ever handed to [json.loads], and the tool is called with
    [{}]. *)
Lemma empty_buffer_is_never_parsed :
  parsed_texts
    (fst (exec no_argument_env
            (for_in no_argument_response handle_chunk init_stream_state) []))
  = []
  /\ length (parsed_texts
               (fst (exec no_argument_env (process_query connected "hi") [])))
     <> 1
  /\ hd_error
       (tl (remote (fst (exec no_argument_env (process_query connected "hi") []))))
     = Some (ToolExchange "fetch" empty_dict
               (inr (text_result "page of fetch"))).
Proof.
  split; [reflexivity|]. split; [discriminate|reflexivity].
Qed.


(** C2, as stated, fails.  In a session with a single query the tools
    are listed twice, and the second listing happens while the query is
    processed. *)
Lemma tools_are_listed_again_by_a_query :
  listings (fst (exec session_env (main 3) [])) = 2
  /\ snd (exec session_env (main 3) []) = Returned tt
  /\ listings (fst (exec session_env (process_query connected "hi") [])) <> 0.
Proof.
  split; [reflexivity|]. split; [reflexivity|discriminate].
Qed.

(** One query on an open session lists the tools once. *)
Lemma tools_are_listed_by_every_query_witness :
  session connected = Some (mk_ClientSession 3 4)
  /\ listings (fst (exec one_tool_env (process_query connected "hi") [])) = 1.
Proof.
  split; [reflexivity|].
  exact (proj1 (proj2
           (@tools_are_listed_by_every_query builtins one_tool_env connected
              (mk_ClientSession 3 4) "hi" [] eq_refl))).
Defined.

(** C3, as stated, fails.  When the model's response starts two tool-use
    blocks, the query invokes two tools and calls the model again
    twice. *)
Lemma two_tools_are_invoked_for_one_query :
  map step_of (remote (fst (exec two_tool_env (process_query connected "hi") [])))
  = [AskModel;
     UseTool "fetch" (JObject []); AskModel;
     UseTool "fetch" (JNumber "7"); AskModel]
  /\ snd (exec two_tool_env (process_query connected "hi") [])
     = Returned (join nl ["done"; "done"]).
Proof.
  split; reflexivity.
Qed.

(** A response with two tool-use blocks. *)
Lemma one_round_per_tool_use_block_witness :
  exec two_tool_env (process_query connected "hi") []
  = (fst (exec two_tool_env (process_query connected "hi") []),
     Returned (join nl ["done"; "done"]))
  /\ exists (tools : list tool_param) (stream : message_stream)
            (tcs : list tool_call),
      hd_error (remote (fst (exec two_tool_env (process_query connected "hi") [])))
      = Some (ModelExchange [mk_message "user" "hi"] (Some tools) (inr stream))
      /\ map id_name tcs
         = started_tools (before_message_stop (stream_chunks stream))
      /\ map step_of
           (remote (fst (exec two_tool_env (process_query connected "hi") [])))
         = AskModel
           :: flat_map (fun tc => [UseTool (tc_name tc) (tc_input tc); AskModel])
                       tcs
      /\ (exists s' : trace,
            fst (exec two_tool_env (process_query connected "hi") [])
            = s' ++ [EvOut (Print nl nl)]).
Proof.
  split; [reflexivity|].
  exact (@one_round_per_tool_use_block builtins two_tool_env connected "hi" []
           _ _ eq_refl).
Defined.






(** A session in which [quit] is typed at once. *)
Lemma cleanup_always_runs_witness :
  exec quit_env (main_body MCPClient_init 1) []
  = (fst (exec quit_env (main_body MCPClient_init 1) []), Returned tt)
  /\ Returned tt <> (Running : outcome unit)
  /\ exists o' : outcome unit,
      exec quit_env (main 1) []
      = (fst (exec quit_env (main_body MCPClient_init 1) [])
           ++ [EvCall Aclose
                 (quit_env
                    ([] ++ fst (exec quit_env (main_body MCPClient_init 1) []))
                    Aclose)],
         o')
      /\ o' <> Running.
Proof.
  assert (Hdone : Returned tt <> (Running : outcome unit)) by discriminate.
  split; [reflexivity|]. split; [exact Hdone|].
  exact (@cleanup_always_runs builtins quit_env 1 [] _ _ eq_refl Hdone).
Defined.

(** ** The further properties on examples *)

(** The response that uses one tool: its text is collected and echoed. *)
Lemma streamed_text_is_echoed_and_collected_witness :
  exec one_tool_env (for_in one_tool_response handle_chunk init_stream_state) []
  = (fst (exec one_tool_env
            (for_in one_tool_response handle_chunk init_stream_state) []),
     Returned (Break collected))
  /\ accumulated_text collected = "ok"
  /\ written (fst (exec one_tool_env
                     (for_in one_tool_response handle_chunk init_stream_state)
                     []))
     = list_ascii_of_string "ok".
Proof.
  split; [reflexivity|].
  exact (@streamed_text_is_echoed_and_collected one_tool_env one_tool_response
           init_stream_state [] _ (Break collected) eq_refl).
Defined.

(** Text and a failure that come after the [message_stop]. *)
Lemma nothing_is_read_after_message_stop_witness :
  has_message_stop late_chunks = true
  /\ exec one_tool_env
       (for_stream (mk_stream late_chunks (Some eof)) handle_chunk
                   init_stream_state) []
     = exec one_tool_env
         (for_stream (mk_stream (before_message_stop late_chunks) None)
                     handle_chunk init_stream_state) [].
Proof.
  split; [reflexivity|].
  exact (@nothing_is_read_after_message_stop one_tool_env late_chunks
           (Some eof) init_stream_state [] eq_refl).
Defined.

(** A tool-use block ended by [message_stop]. *)
Lemma tool_block_cut_short_keeps_empty_input_witness :
  forallb inside_block argument_fragments = true
  /\ exec one_tool_env
       (for_in (ContentBlockStart (ToolUseBlock "toolu_1" "fetch")
                  :: argument_fragments ++ MessageStop :: [])
               handle_chunk init_stream_state) []
     = (typed_chunks argument_fragments,
        Returned (Break
          {| accumulated_text := "x";
             tool_calls := [mk_tool_call "toolu_1" "fetch" empty_dict];
             current_tool_input := "42" |})).
Proof.
  split; [reflexivity|].
  exact (proj1 (@tool_block_cut_short_keeps_empty_input one_tool_env
                  "toolu_1" "fetch" argument_fragments [] init_stream_state []
                  eq_refl)).
Defined.

(** [json.loads] hits the recursion limit. *)
Lemma other_parse_errors_are_raised_witness :
  forallb inside_block argument_fragments = true
  /\ truthy (fragments argument_fragments) = true
  /\ deep_env ([] ++ typed_chunks argument_fragments)
       (JsonLoads (fragments argument_fragments)) = inl recursion_error
  /\ is_JSONDecodeError recursion_error = false
  /\ exec deep_env
       (for_in ((ContentBlockStart (ToolUseBlock "toolu_1" "fetch")
                   :: argument_fragments ++ [ContentBlockStop])
                  ++ plain_response)
               handle_chunk init_stream_state) []
     = (typed_chunks argument_fragments
          ++ [EvCall (JsonLoads (fragments argument_fragments))
                (inl recursion_error)],
        Raised recursion_error).
Proof.
  split; [reflexivity|]. split; [reflexivity|]. split; [reflexivity|].
  split; [reflexivity|].
  exact (@other_parse_errors_are_raised deep_env "toolu_1" "fetch"
           argument_fragments plain_response init_stream_state []
           recursion_error eq_refl eq_refl eq_refl eq_refl).
Defined.

(** A text block after a tool call has been collected. *)
Lemma text_leaves_tool_calls_alone_witness :
  fragments text_block = EmptyString
  /\ started_tools text_block = []
  /\ current_tool_input collected = EmptyString
  /\ exec one_tool_env (for_in text_block handle_chunk collected) []
     = (typed "x" (1 # 100),
        Returned (Next {| accumulated_text := "okx";
                          tool_calls := tool_calls collected;
                          current_tool_input := EmptyString |}))
  /\ parsed_texts (typed "x" (1 # 100)) = [].
Proof.
  split; [reflexivity|]. split; [reflexivity|]. split; [reflexivity|].
  split; [reflexivity|].
  exact (proj2 (proj2
           (@text_leaves_tool_calls_alone one_tool_env text_block collected []
              _ _ eq_refl eq_refl eq_refl eq_refl))).
Defined.



(** The first request of a query on an open session. *)
Lemma first_request_offers_the_listed_tools_witness :
  session connected = Some (mk_ClientSession 3 4)
  /\ remote (fst (exec one_tool_env (process_query connected "hi") [])) <> []
  /\ exists (response : list Tool) (text : string) (model : option string)
            (ans : exn + message_stream) (rest : trace),
      fst (exec one_tool_env (process_query connected "hi") [])
      = EvCall (ListTools (mk_ClientSession 3 4)) (inr response)
        :: EvOut (Print text nl)
        :: EvCall (Getenv "ANTHROPIC_MODEL") (inr model)
        :: EvCall (MessagesCreate model 1000 [mk_message "user" "hi"]
                     (Some (map available_tool response))) ans
        :: rest
      /\ map tp_name (map available_tool response) = map tool_name response.
Proof.
  assert (H : remote (fst (exec one_tool_env (process_query connected "hi") []))
              <> []) by discriminate.
  split; [reflexivity|]. split; [exact H|].
  exact (@first_request_offers_the_listed_tools builtins one_tool_env connected
           (mk_ClientSession 3 4) "hi" [] eq_refl H).
Defined.

(** A tool that returns no content. *)
Lemma empty_tool_result_raises_index_error_witness :
  session connected = Some (mk_ClientSession 3 4)
  /\ result_content empty_result = []
  /\ snd (exec empty_result_env
            (handle_tool_call connected "ok" first_tool_call fresh_conversation)
            [])
     = Raised (mk_exn IndexError "list index out of range").
Proof.
  split; [reflexivity|]. split; [reflexivity|].
  exact (f_equal snd
           (@empty_tool_result_raises_index_error builtins empty_result_env
              connected (mk_ClientSession 3 4) "ok" first_tool_call
              fresh_conversation [] _ empty_result
              eq_refl eq_refl eq_refl eq_refl)).
Defined.

(** A query that uses two tools: requests of 1, 3 and 5 messages. *)
Lemma requests_alternate_and_grow_by_two_witness :
  exec two_tool_env (process_query connected "hi") []
  = (fst (exec two_tool_env (process_query connected "hi") []),
     Returned (join nl ["done"; "done"]))
  /\ map (@length message)
       (requests (remote (fst (exec two_tool_env
                                 (process_query connected "hi") []))))
     = map (fun i => 2 * i + 1)
         (seq 0 (length (requests (remote (fst (exec two_tool_env
                                                  (process_query connected "hi")
                                                  []))))))
  /\ length (requests (remote (fst (exec two_tool_env
                                      (process_query connected "hi") []))))
     = 3.
Proof.
  split; [reflexivity|]. split; [|reflexivity].
  exact (proj1 (@requests_alternate_and_grow_by_two builtins two_tool_env
                  connected "hi" [] _ _ eq_refl)).
Defined.


(** A handshake that succeeds. *)
Lemma handshake_is_four_steps_then_a_print_witness :
  exec quit_env (connect_to_server MCPClient_init) []
  = (fst (exec quit_env (connect_to_server MCPClient_init) []),
     Returned connected)
  /\ exists (transport : handle * handle) (s0 : ClientSession)
            (tools : list Tool),
      fst (exec quit_env (connect_to_server MCPClient_init) [])
      = [EvCall (StdioClient server_params) (inr transport);
         EvCall (EnterClientSession
                   (mk_ClientSession (fst transport) (snd transport)))
                (inr s0);
         EvCall (Initialize s0) (inr tt);
         EvCall (ListTools s0) (inr tools);
         EvOut (Print (nl ++ "Connected to server with tools: "
                          ++ repr_names (map tool_name tools)) nl)]
      /\ session connected = Some s0.
Proof.
  split; [reflexivity|].
  exact (proj1 (@handshake_is_four_steps_then_a_print builtins quit_env
                  MCPClient_init [] _ _ eq_refl) connected eq_refl).
Defined.

(** The input has ended: two iterations seen, the loop still running. *)
Lemma loop_spins_when_input_keeps_failing_witness :
  (forall h' : trace, eof_forever_env h' (Input (nl ++ "Query: ")) = inl eof)
  /\ is_Exception eof = true
  /\ exec eof_forever_env (connect_to_server MCPClient_init) []
     = (fst (exec eof_forever_env (connect_to_server MCPClient_init) []),
        Returned connected)
  /\ snd (exec eof_forever_env (main 2) []) = Running.
Proof.
  assert (H : forall h' : trace,
             eof_forever_env h' (Input (nl ++ "Query: ")) = inl eof)
    by (intros h'; unfold eof_forever_env, world_env; simpl;
        destruct (inputs_read h'); reflexivity).
  split; [exact H|]. split; [reflexivity|]. split; [reflexivity|].
  exact (f_equal snd
           (proj2 (@loop_spins_when_input_keeps_failing builtins eof_forever_env
                     eof 2 [] _ connected H eq_refl eq_refl))).
Defined.

(** Closing the exit stack fails after [quit]. *)
Lemma cleanup_failure_replaces_the_outcome_witness :
  exec failing_close_env (main_body MCPClient_init 1) []
  = (fst (exec failing_close_env (main_body MCPClient_init 1) []), Returned tt)
  /\ Returned tt <> (Running : outcome unit)
  /\ snd (exec failing_close_env (main 1) []) = Raised close_error.
Proof.
  assert (Hdone : Returned tt <> (Running : outcome unit)) by discriminate.
  split; [reflexivity|]. split; [exact Hdone|].
  exact (@cleanup_failure_replaces_the_outcome builtins failing_close_env 1 []
           _ _ eq_refl Hdone).
Defined.

(** The provider refuses [initialize]. *)
Lemma failed_handshake_skips_the_loop_witness :
  exec refusing_env (connect_to_server MCPClient_init) []
  = (fst (exec refusing_env (connect_to_server MCPClient_init) []),
     Raised refused)
  /\ snd (exec refusing_env (main 2) []) = Raised refused
  /\ length (fst (exec refusing_env (main 2) [])) = 4.
Proof.
  split; [reflexivity|]. split; [|reflexivity].
  exact (f_equal snd
           (proj1 (@failed_handshake_skips_the_loop builtins refusing_env 2 []
                     _ refused eq_refl))).
Defined.
